(** * gio-v widget toolkit: ink animation, button background, separator
      and flex/list node trees

    Shallow embedding of
      - [drawInk], [ButtonDef.LayoutBackground] and the head of
        [ButtonDef.Layout], the button options [Width], [BtnIcon],
        [Handler], [Disable], [Hint], [apply], the constructor [Button],
        [layLabel] and [layIcon] (button source of package [wid]),
      - [Separator] (wid/separator.go),
      - [node], [addChild], [MakeList], [drawList], [MakeFlex], [drawFlex]
        (wid/setup.go),
      - [modeFromString], [updateMode], [onClick], the progress step of
        [main] and [handleFrameEvents] with its globals (demo.go).

    Conventions of the model.
      - A [time.Time] is the integer number of nanoseconds since the zero
        instant, so [IsZero] is the test against 0.  [time.Sub] saturates
        at the bounds of the 64-bit [Duration], as the Go library does.
      - A [float64] (and a [float32]) is idealised as an exact rational:
        the operations [+ - * /], [math.Max], [math.Min] and the
        comparisons are those of [Q].  Rounding to binary64 is not
        modelled; the statements below are about the arithmetic the code
        writes down.
      - Drawing is a writer effect: a function that adds operations to
        [gtx.Ops] returns the list of operations it adds, in order. *)

From Stdlib Require Import String.
From Stdlib Require Import ZArith QArith Qround Qminmax Qabs List Bool Lia Lqa.
Import ListNotations.

Set Warnings "-register-all".
Local Open Scope Z_scope.

(* ------------------------------------------------------------------ *)
(** ** Time *)

Module time.

(** Nanoseconds since the zero instant. *)
Definition Time := Z.
(** [time.Duration]: a signed 64-bit count of nanoseconds. *)
Definition Duration := Z.

Definition minDuration : Duration := (- 2 ^ 63)%Z.
Definition maxDuration : Duration := (2 ^ 63 - 1)%Z.
Definition Second : Duration := 1000000000%Z.

Definition IsZero (t : Time) : bool := (t =? 0)%Z.

(** [t.Sub(u)]: the difference, or the nearest representable
    duration when it does not fit. *)
Definition Sub (t u : Time) : Duration :=
  let d := (t - u)%Z in
  if (d <? minDuration)%Z then minDuration
  else if (maxDuration <? d)%Z then maxDuration
  else d.

(** [d.Seconds()]: whole seconds plus the fractional part. *)
Definition Seconds (d : Duration) : Q :=
  let sec := Z.quot d Second in
  let nsec := Z.rem d Second in
  inject_Z sec + inject_Z nsec / inject_Z Second.

End time.

(* ------------------------------------------------------------------ *)
(** ** Floating-point helpers over the rational idealisation *)

Definition Qgtb (x y : Q) : bool := negb (Qle_bool x y).
Definition Qleb (x y : Q) : bool := Qle_bool x y.

(** [byte(x)] for a float [x], as the conversion comes out on amd64 (the
    language leaves the result outside [0;255] to the implementation): the
    float is truncated toward zero to a 32-bit integer, of which the low
    eight bits are kept; a truncation that does not fit 32 bits yields the
    bits 0x80000000, whose low byte is 0. *)
Definition byte_of_float (x : Q) : Z :=
  let t := Z.quot (Qnum x) (Zpos (Qden x)) in
  if ((t <? - 2 ^ 31) || (2 ^ 31 <=? t))%Z then 0%Z else Z.modulo t 256.

(** [math.Sqrt(2.0)]: the binary64 number nearest to the square root of 2,
    which is the rational 6369051672525773 / 2^52. *)
Definition Sqrt2 : Q := 6369051672525773 # 4503599627370496.

(* ------------------------------------------------------------------ *)
(** ** Geometry, context, operations *)

(** [image.Point] *)
Record Point := Pt { X : Z; Y : Z }.

(** [layout.Constraints] *)
Record Constraints := { Min : Point; Max : Point }.

(** [layout.Dimensions] (the baseline plays no part here). *)
Record Dimensions := { Size : Point }.

(** [f32.Point] *)
Record FPoint := FPt { FX : Q; FY : Q }.

(** [layout.Context], restricted to the fields the embedded code reads.
    [Queue] is [true] when the event queue is non-nil. *)
Record Context := {
  Cs : Constraints;
  Now : time.Time;
  Queue : bool
}.

(** [gtx.Disabled()]: the same context with a nil queue. *)
Definition Disabled_ctx (gtx : Context) : Context :=
  {| Cs := Cs gtx; Now := Now gtx; Queue := false |}.

(** Colours are kept symbolic: the theme and the colour helpers
    ([MulAlpha], [Hovered], [Disabled]) live outside the embedded files. *)
Inductive Colour :=
| NRGBA (r g b a : Z)
| ThBackground | ThPrimary | ThOnPrimary | ThOnBackground
| MulAlpha (c : Colour) (alpha : Z)
| HoveredC (c : Colour)
| DisabledC (c : Colour).

(** [unit.Value]: a number and its unit. *)
Inductive Unit := UnitPx | UnitDp | UnitSp.
Record Value := { V : Q; U : Unit }.

(** The shapes the embedded code hands to [paint.FillShape]: the rounded
    rectangle [clip.RRect{Rect: outline, SE: .., SW: .., NW: .., NE: ..}]
    and the stroke [clip.Stroke{Path: clip.UniformRRect(outline, rr).Path(..),
    Style: clip.StrokeStyle{Width: width}}]; the rectangles start at the
    origin and [maxc] is their far corner. *)
Inductive Shape :=
| RRectShape (maxc : FPoint) (se sw nw ne : Q)
| StrokeShape (maxc : FPoint) (rr : Q) (width : Q).

(** What the embedded code does on [gtx.Ops], one entry per call it
    makes: the operations it adds itself, a call of [paint.FillShape]
    ([FillShapeOp]) and a layout of [Shadow] ([ShadowOp], with the radius
    handed over as [unit.Px(rr)] and the elevation).  What the two
    callees add to the stream in their turn is code outside the embedded
    files and is not listed. *)
Inductive Op :=
| InvalidateOp
| SaveOp
| LoadOp
| ColorOp (c : Colour)
| OffsetOp (p : FPoint)
| UniformRRectOp (maxc : FPoint) (rr : Q)
| RectOp (maxc : Point)
| PaintOp
| ShadowOp (rr : Q) (elevation : Value)
| FillShapeOp (c : Colour) (s : Shape).

(** [widget.Press] *)
Record Press := {
  Position : FPoint;
  Start : time.Time;
  End : time.Time;
  Cancelled : bool
}.

(* ------------------------------------------------------------------ *)
(** ** drawInk *)

Section DrawInk.

Variable gtx : Context.
Variable c : Press.

Local Open Scope Q_scope.

(** [t := float64(now.Sub(c.Start).Seconds())] *)
Definition ink_t : Q := time.Seconds (time.Sub (Now gtx) (Start c)).

(** [end := c.End; if end.IsZero() { end = now }] *)
Definition ink_end : time.Time :=
  if time.IsZero (End c) then Now gtx else End c.

(** [endt := float64(end.Sub(c.Start).Seconds())] *)
Definition ink_endt : Q := time.Seconds (time.Sub ink_end (Start c)).

(** [haste]: zero unless the press was cancelled and
    [h := 0.5 - endt/0.9] is positive. *)
Definition ink_haste : Q :=
  if Cancelled c then
    let h := 0.5 - ink_endt / 0.9 in
    if Qgtb h 0 then h else 0
  else 0.

(** [half1 := math.Max(t/0.9+haste, 0.5); if half1 > 0.5 { half1 = 0.5 }] *)
Definition ink_half1 : Q :=
  let half1 := Qmax (ink_t / 0.9 + ink_haste) 0.5 in
  if Qgtb half1 0.5 then 0.5 else half1.

(** [half2 := now.Sub(end).Seconds()/0.9 + haste] *)
Definition ink_half2 : Q :=
  time.Seconds (time.Sub (Now gtx) ink_end) / 0.9 + ink_haste.

(** [if half2 > 0.5 { return }] *)
Definition ink_faded : bool := Qgtb ink_half2 0.5.

(** [alphat := half1 + half2], before the fold at one half. *)
Definition ink_alphat0 : Q := ink_half1 + ink_half2.

(** [if c.Cancelled { t = endt }] *)
Definition ink_texp : Q := if Cancelled c then ink_endt else ink_t.

(** [sizet := math.Min(t*2, 1.0)] *)
Definition ink_sizet : Q := Qmin (ink_texp * 2) 1.0.

(** [!c.End.IsZero() || sizet <= 1.0] *)
Definition ink_invalidate : bool :=
  negb (time.IsZero (End c)) || Qleb ink_sizet 1.0.

(** [if alphat > .5 { alphat = 1.0 - alphat }] *)
Definition ink_alphat : Q :=
  if Qgtb ink_alphat0 0.5 then 1.0 - ink_alphat0 else ink_alphat0.

(** [t2 := alphat * 2] *)
Definition ink_t2 : Q := ink_alphat * 2.

(** [size := math.Max(float64(gtx.Constraints.Min.Y), float64(gtx.Constraints.Min.X))] *)
Definition ink_size : Q :=
  Qmax (inject_Z (Y (Min (Cs gtx)))) (inject_Z (X (Min (Cs gtx)))).

(** [alpha := 0.7 * alphat * 2 * t2 * (3.0 - 3.0*alphat)] *)
Definition ink_alpha : Q :=
  0.7 * ink_alphat * 2 * ink_t2 * (3.0 - 3.0 * ink_alphat).

(** [ba := byte(alpha*0xff)] *)
Definition ink_ba : Z := byte_of_float (ink_alpha * 255).

(** [rr := float32(size * math.Sqrt(2.0) * sizet * sizet * (3.0 - 2.0*sizet))] *)
Definition ink_rr : Q :=
  ink_size * Sqrt2 * ink_sizet * ink_sizet * (3.0 - 2.0 * ink_sizet).

(** The operations one call of [drawInk] adds: none after the early
    return; otherwise the optional redraw request, the saved state, the
    ink colour, the offset, the round clip, the paint, and the deferred
    restore. *)
Definition drawInk : list Op :=
  if ink_faded then []
  else
    (if ink_invalidate then [InvalidateOp] else [])
    ++ [ SaveOp;
         ColorOp (MulAlpha (NRGBA 128 128 128 255) ink_ba);
         OffsetOp (FPt (FX (Position c) + - ink_rr) (FY (Position c) + - ink_rr));
         UniformRRectOp (FPt (2 * ink_rr) (2 * ink_rr)) ink_rr;
         PaintOp;
         LoadOp ].

End DrawInk.

(* ------------------------------------------------------------------ *)
(** ** Machine integers and units *)

(** Go's [int] on a 64-bit target: results wrap around modulo 2^64. *)
Definition int (z : Z) : Z := ((z + 2 ^ 63) mod 2 ^ 64 - 2 ^ 63)%Z.
Arguments int z : simpl never.

(** [v.Scale(s)] *)
Definition Scale (v : Value) (s : Q) : Value := {| V := (V v * s)%Q; U := U v |}.

(** [layout.Inset] *)
Record Inset := { Top : Value; Bottom : Value; Left : Value; Right : Value }.

(** The context with other constraints, as the layout helpers pass it down. *)
Definition withCs (gtx : Context) (cs : Constraints) : Context :=
  {| Cs := cs; Now := Now gtx; Queue := Queue gtx |}.

(** [layout.Widget]: the operations added and the dimensions returned. *)
Definition Widget := Context -> list Op * Dimensions.

(* ------------------------------------------------------------------ *)
(** ** The button: LayoutBackground and the head of Layout *)

Inductive ButtonStyle := Contained | Text | Outlined | Round.

Definition ButtonStyle_eqb (a b : ButtonStyle) : bool :=
  match a, b with
  | Contained, Contained | Text, Text | Outlined, Outlined | Round, Round => true
  | _, _ => false
  end.

(** The part of the embedded [Clickable] the button reads and writes:
    the press history returned by [History()], the answers of [Hovered()]
    and [Focused()], and the [disabled] flag. *)
Record Clickable := {
  history : list Press;
  hovered : bool;
  focused : bool;
  disabled : bool
}.

(** The theme values the background reads. *)
Record Theme := {
  CornerRadius : Value;
  BorderThickness : Value;
  Elevation : Value
}.

(** [ButtonDef], restricted to the fields the embedded functions read.
    [disabler] is [None] for a nil pointer and otherwise holds the value
    the pointer refers to at the time of the call. *)
Record ButtonDef := {
  clickable : Clickable;
  th : Theme;
  disabler : option bool;
  Width : Value;
  Style : ButtonStyle
}.

Definition History (b : ButtonDef) : list Press := history (clickable b).
Definition Hovered (b : ButtonDef) : bool := hovered (clickable b).
Definition Focused (b : ButtonDef) : bool := focused (clickable b).

Definition set_disabled (b : ButtonDef) (d : bool) : ButtonDef :=
  {| clickable := {| history := history (clickable b);
                     hovered := hovered (clickable b);
                     focused := focused (clickable b);
                     disabled := d |};
     th := th b; disabler := disabler b; Width := Width b; Style := Style b |}.

Section Widgets.

(** [gtx.Px] and [Pxr]: the conversions of a [unit.Value] to pixels by the
    metric of the context; both are defined outside the embedded files. *)
Variable Px : Context -> Value -> Z.
Variable Pxr : Context -> Value -> Q.

(** [PaintBorder(gtx, outline, col, width, rr)]: one [paint.FillShape]
    of the stroked outline. *)
Definition PaintBorder (gtx : Context) (outline : FPoint) (col : Colour)
           (width rr : Value) : list Op :=
  [FillShapeOp col (StrokeShape outline (Pxr gtx rr) (Pxr gtx width))].

(** The background fill chosen by the [switch] of [LayoutBackground]:
    per case one [paint.FillShape] of the rounded outline and, for the
    outlined style, [PaintBorder] with the theme's border thickness and
    corner radius. *)
Definition backgroundFill (b : ButtonDef) (gtx : Context) (outline : FPoint) (rr : Q) : list Op :=
  let hf := Hovered b || Focused b in
  let fill c := FillShapeOp c (RRectShape outline rr rr rr rr) in
  let border c :=
    PaintBorder gtx outline c (BorderThickness (th b)) (CornerRadius (th b)) in
  match Style b with
  | Text =>
      if negb (Queue gtx) then [fill ThBackground]
      else if hf then [fill (HoveredC ThBackground)]
      else [fill ThBackground]
  | Outlined =>
      if negb (Queue gtx) then
        fill ThBackground :: border (DisabledC ThPrimary)
      else if hf then
        fill (HoveredC ThBackground) :: border ThPrimary
      else fill ThBackground :: border ThPrimary
  | Contained | Round =>
      if negb (Queue gtx) then [fill (DisabledC ThPrimary)]
      else if hf then [fill (HoveredC ThPrimary)]
      else [fill ThPrimary]
  end.

(** Everything [LayoutBackground] does before the loop over the history:
    the shadow when focused or hovered, the round clip, the fill. *)
Definition paintBackground (b : ButtonDef) (gtx : Context) : list Op :=
  let rr := if ButtonStyle_eqb (Style b) Round
            then (inject_Z (Y (Min (Cs gtx))) / 2.0)%Q
            else Pxr gtx (CornerRadius (th b)) in
  let shadow := if Focused b || Hovered b
                then [ShadowOp rr (Elevation (th b))] else [] in
  let outline := FPt (inject_Z (X (Min (Cs gtx)))) (inject_Z (Y (Min (Cs gtx)))) in
  shadow ++ [UniformRRectOp outline rr] ++ backgroundFill b gtx outline rr.

(** [for _, c := range b.History() { drawInk(gtx, c) }] *)
Definition inkLoop (b : ButtonDef) (gtx : Context) : list Op :=
  flat_map (drawInk gtx) (History b).

(** The widget returned by [b.LayoutBackground()]. *)
Definition LayoutBackground (b : ButtonDef) : Widget :=
  fun gtx =>
    (paintBackground b gtx ++ inkLoop b gtx, {| Size := Min (Cs gtx) |}).

(** The first statements of the closure in [ButtonDef.Layout]:
    [b.disabled = false], then, when the disabler points to [true] or
    [GlobalDisable] is set, [gtx = gtx.Disabled()] and [b.disabled = true]. *)
Definition Layout_disable (GlobalDisable : bool) (b : ButtonDef) (gtx : Context)
  : ButtonDef * Context :=
  let b := set_disabled b false in
  if (match disabler b with Some v => v | None => false end) || GlobalDisable
  then (set_disabled b true, Disabled_ctx gtx)
  else (b, gtx).

(** The minimum size [min] that [ButtonDef.Layout] hands to the inner
    flex: a [Width] of at most 1 is a fraction of the maximum width,
    a larger one is a lower bound; the result is capped by the maximum. *)
Definition Layout_min (b : ButtonDef) (gtx : Context) : Point :=
  let min := Min (Cs gtx) in
  let maxX := X (Max (Cs gtx)) in
  let min :=
    if Qleb (V (Width b)) 1.0 then
      Pt (Px gtx (Scale (Width b) (inject_Z maxX))) (Y min)
    else if (X min <? Px gtx (Width b))%Z then
      Pt (Px gtx (Width b)) (Y min)
    else min in
  if (X min >? maxX)%Z then Pt maxX (Y min) else min.

(* ------------------------------------------------------------------ *)
(** ** Separator *)

(** [SeparatorStyle]: the padding of the embedded [Widget], the
    thickness and the colour set by the options. *)
Record SeparatorStyle := {
  padding : Inset;
  thickness : Value;
  color : Colour
}.

(** The widget returned by [Separator(th, thickness, options...)], for the
    style [s] the options have produced. *)
Definition Separator (s : SeparatorStyle) : Widget :=
  fun gtx =>
    let dim := Max (Cs gtx) in
    let dimY := int (int (Px gtx (thickness s) + Px gtx (Top (padding s)))
                     + Px gtx (Bottom (padding s))) in
    let dim := Pt (X dim) dimY in
    let size := Pt (int (int (X dim - Px gtx (Left (padding s)))
                         - Px gtx (Right (padding s))))
                   (Px gtx (thickness s)) in
    ([ OffsetOp (FPt (inject_Z (Px gtx (Left (padding s))))
                     (inject_Z (Px gtx (Top (padding s)))));
       RectOp size;
       ColorOp ThOnBackground;
       PaintOp ],
     {| Size := dim |}).

End Widgets.

(* ------------------------------------------------------------------ *)
(** ** The layout library's flex, as far as [drawFlex] uses it *)

Module layout.

Inductive Axis := Horizontal | Vertical.

(** [a.Convert(pt)]: main axis first. *)
Definition Convert (a : Axis) (p : Point) : Point :=
  match a with
  | Horizontal => p
  | Vertical => Pt (Y p) (X p)
  end.

Definition mainConstraint (a : Axis) (cs : Constraints) : Z * Z :=
  match a with
  | Horizontal => (X (Min cs), X (Max cs))
  | Vertical => (Y (Min cs), Y (Max cs))
  end.

Definition crossConstraint (a : Axis) (cs : Constraints) : Z * Z :=
  match a with
  | Horizontal => (Y (Min cs), Y (Max cs))
  | Vertical => (X (Min cs), X (Max cs))
  end.

(** [a.constraints(mainMin, mainMax, crossMin, crossMax)] *)
Definition constraints (a : Axis) (mainMin mainMax crossMin crossMax : Z) : Constraints :=
  match a with
  | Horizontal => {| Min := Pt mainMin crossMin; Max := Pt mainMax crossMax |}
  | Vertical => {| Min := Pt crossMin mainMin; Max := Pt crossMax mainMax |}
  end.

Inductive Alignment := Start | End_ | Middle | Baseline.
Inductive Spacing := SpaceEnd | SpaceStart | SpaceSides | SpaceAround | SpaceBetween | SpaceEvenly.

(** [layout.Flex]; the zero values are [Horizontal], [SpaceEnd], [Start]. *)
Record Flex := { FlexAxis : Axis; FlexSpacing : Spacing; FlexAlignment : Alignment }.

(** [layout.FlexChild]: [Rigid(w)] or [Flexed(weight, w)]. *)
Inductive FlexChild :=
| Rigid (w : Widget)
| Flexed (weight : Q) (w : Widget).

(** The first pass of [Flex.Layout]: every rigid child, in order, is laid
    out with the main-axis constraints [0; remaining], where [remaining]
    starts at the maximum main length and shrinks by the length each child
    returns (never below 0).  The result lists the dimensions the rigid
    children returned. *)
Fixpoint rigidPass (a : Axis) (gtx : Context) (crossMin crossMax : Z)
         (remaining : Z) (children : list FlexChild) : list Dimensions :=
  match children with
  | [] => []
  | Flexed _ _ :: rest => rigidPass a gtx crossMin crossMax remaining rest
  | Rigid w :: rest =>
      let cgtx := withCs gtx (constraints a 0 remaining crossMin crossMax) in
      let dims := snd (w cgtx) in
      let sz := X (Convert a (Size dims)) in
      let remaining := int (remaining - sz) in
      let remaining := if (remaining <? 0)%Z then 0%Z else remaining in
      dims :: rigidPass a gtx crossMin crossMax remaining rest
  end.

(** The dimensions of the rigid children of [f.Layout(gtx, children...)]. *)
Definition rigidDims (f : Flex) (gtx : Context) (children : list FlexChild) : list Dimensions :=
  let (_, mainMax) := mainConstraint (FlexAxis f) (Cs gtx) in
  let (crossMin, crossMax) := crossConstraint (FlexAxis f) (Cs gtx) in
  rigidPass (FlexAxis f) gtx crossMin crossMax mainMax children.

(** The main-axis lengths of a list of dimensions. *)
Definition mainLengths (a : Axis) (ds : list Dimensions) : list Z :=
  map (fun d => X (Convert a (Size d))) ds.

End layout.

(** Sum of a list of lengths. *)
Definition sumZ (l : list Z) : Z := fold_right Z.add 0%Z l.

(* ------------------------------------------------------------------ *)
(** ** The node tree of wid/setup.go *)

Inductive NodeType := ListNode | FlexNode.

(** [node]: a nil [w] is [None]. *)
Inductive node := Node {
  nodeType : NodeType;
  w : option Widget;
  children : list node
}.

(** [n.addChild(w)]: appends a leaf of node type 0 that points to [w]. *)
Definition addChild (n : node) (wd : Widget) : node :=
  Node (nodeType n) (w n) (children n ++ [Node ListNode (Some wd) []]).

(** [for _, w := range widgets { node.addChild(w) }] *)
Definition addChildren (n : node) (widgets : list Widget) : node :=
  fold_left addChild widgets n.

(** The loop of [drawList]: the widgets the children point to; [None]
    when a child has a nil [w], where the dereference panics. *)
Fixpoint derefChildren (cs : list node) : option (list Widget) :=
  match cs with
  | [] => Some []
  | n :: rest =>
      match w n, derefChildren rest with
      | Some wd, Some l => Some (wd :: l)
      | _, _ => None
      end
  end.

(** The slice [ch] that [drawFlex] builds: each child wrapped by
    [layout.Rigid]. *)
Definition drawFlex_children (n : node) : option (list layout.FlexChild) :=
  option_map (map layout.Rigid) (derefChildren (children n)).

Section Engines.

(** [layout.Flex.Layout] of the layout library and [ListStyle.Layout] of
    this package; both bodies are outside the embedded files.  A panic is
    [None].  The list engine receives the number of elements and the
    element function. *)
Variable FlexLayout : layout.Flex -> Context -> list layout.FlexChild -> option (list Op * Dimensions).
Variable ListLayout : layout.Axis -> Context -> nat
                      -> (Context -> nat -> option (list Op * Dimensions))
                      -> option (list Op * Dimensions).

(** [drawFlex(n)(gtx)] *)
Definition drawFlex (n : node) (gtx : Context) : option (list Op * Dimensions) :=
  match drawFlex_children n with
  | None => None
  | Some ch =>
      FlexLayout {| layout.FlexAxis := layout.Horizontal;
                    layout.FlexSpacing := layout.SpaceEnd;
                    layout.FlexAlignment := layout.Middle |} gtx ch
  end.

(** [MakeFlex(widgets...)] *)
Definition MakeFlex (widgets : list Widget) (gtx : Context) : option (list Op * Dimensions) :=
  let n := addChildren (Node FlexNode None []) widgets in
  drawFlex n gtx.

(** [drawList(n, listStyle)(gtx)]: the element function indexes [ch]
    and panics out of range. *)
Definition drawList (n : node) (dir : layout.Axis) (gtx : Context) : option (list Op * Dimensions) :=
  match derefChildren (children n) with
  | None => None
  | Some ch =>
      ListLayout dir gtx (length ch)
        (fun gtx i => match nth_error ch i with
                      | Some wd => Some (wd gtx)
                      | None => None
                      end)
  end.

(** [MakeList(th, dir, widgets...)] *)
Definition MakeList (dir : layout.Axis) (widgets : list Widget) (gtx : Context)
  : option (list Op * Dimensions) :=
  let n := addChildren (Node ListNode None []) widgets in
  drawList n dir gtx.

End Engines.

(* ------------------------------------------------------------------ *)
(** ** Vocabulary of the statements *)

(** The opacity multiplier a call of [drawInk] paints with; 0 when the
    call returns before painting. *)
Definition opacity (gtx : Context) (c : Press) : Q :=
  if ink_faded gtx c then 0%Q else ink_alpha gtx c.

(** The ease curve [3s^2 - 2s^3]. *)
Definition ease (s : Q) : Q := (3 * s * s - 2 * s * s * s)%Q.

(** The clamp to [0;1]. *)
Definition clamp01 (s : Q) : Q := Qmax 0 (Qmin s 1).

(** [min <= size <= max], componentwise. *)
Definition within (cs : Constraints) (p : Point) : Prop :=
  (X (Min cs) <= X p <= X (Max cs)) /\ (Y (Min cs) <= Y p <= Y (Max cs)).

(** A context at the instant [now] (in nanoseconds) with minimum size
    [mn] and maximum size [mx]. *)
Definition contextAt (now : time.Time) (mn mx : Point) : Context :=
  {| Cs := {| Min := mn; Max := mx |}; Now := now; Queue := true |}.

(** A press at the origin of the widget. *)
Definition pressOf (start end_ : time.Time) (cancelled : bool) : Press :=
  {| Position := FPt 0 0; Start := start; End := end_; Cancelled := cancelled |}.

Arguments Pt (X Y)%_Z_scope.
Arguments contextAt now%_Z_scope mn mx.
Arguments pressOf (start end_)%_Z_scope cancelled.

(** The button with its disabler pointer replaced. *)
Definition set_disabler (b : ButtonDef) (d : option bool) : ButtonDef :=
  {| clickable := clickable b; th := th b; disabler := d;
     Width := Width b; Style := Style b |}.

(** The press with start 0 and end 0.3 s, and the context of a button of
    80 by 30 pixels at the instant [now]. *)
Definition press03 : Press := pressOf 0 300000000 false.
Definition sampleAt (now : time.Time) : Context := contextAt now (Pt 80 30) (Pt 80 30).
Arguments sampleAt now%_Z_scope.

(** A widget that draws nothing and asks for [n] by [n] pixels, capped
    by the maximum it is given. *)
Definition cappedWidget (n : Z) : Widget :=
  fun g => ([], {| Size := Pt (Z.min n (X (Max (Cs g)))) (Z.min n (Y (Max (Cs g)))) |}).

(** An inset of zero on every side. *)
Definition noInset : Inset :=
  {| Top := {| V := 0; U := UnitPx |}; Bottom := {| V := 0; U := UnitPx |};
     Left := {| V := 0; U := UnitPx |}; Right := {| V := 0; U := UnitPx |} |}.

(** The metric of one pixel per unit: a value converts to its integer part. *)
Definition pxPlain (gtx : Context) (v : Value) : Z := Qfloor (V v).

(** [unit.Px(n)] *)
Definition unitPx (n : Z) : Value := {| V := inject_Z n; U := UnitPx |}.

(** The style of [Separator(th, unit.Px(1))]: one pixel, no padding. *)
Definition hairline : SeparatorStyle :=
  {| padding := noInset; thickness := unitPx 1; color := ThOnBackground |}.

(** The root node [MakeFlex] starts from, and the flex value [drawFlex]
    lays out with. *)
Definition flexRoot : node := Node FlexNode None [].
Definition theFlex : layout.Flex :=
  {| layout.FlexAxis := layout.Horizontal;
     layout.FlexSpacing := layout.SpaceEnd;
     layout.FlexAlignment := layout.Middle |}.

(** A child honours its constraints on the main (horizontal) axis. *)
Definition honoursMax (wd : Widget) : Prop :=
  forall g : Context, 0 <= X (Max (Cs g)) ->
    0 <= X (Size (snd (wd g))) <= X (Max (Cs g)).

(* ------------------------------------------------------------------ *)
(** ** Kinds of operations *)

Definition isInvalidate (o : Op) : bool :=
  match o with InvalidateOp => true | _ => false end.
Definition isSave (o : Op) : bool :=
  match o with SaveOp => true | _ => false end.
Definition isLoad (o : Op) : bool :=
  match o with LoadOp => true | _ => false end.
Definition isPaint (o : Op) : bool :=
  match o with PaintOp => true | _ => false end.

(** How many operations of a kind a list holds. *)
Definition countOps (p : Op -> bool) (l : list Op) : nat := List.length (filter p l).

(** The records of a history that [drawInk] still paints at [gtx]. *)
Definition unfaded (gtx : Context) (h : list Press) : list Press :=
  filter (fun c => negb (ink_faded gtx c)) h.

(** The button with other hover and focus answers. *)
Definition set_hover_focus (b : ButtonDef) (h f : bool) : ButtonDef :=
  {| clickable := {| history := history (clickable b); hovered := h; focused := f;
                     disabled := disabled (clickable b) |};
     th := th b; disabler := disabler b; Width := Width b; Style := Style b |}.

(** The button with another width. *)
Definition set_Width (b : ButtonDef) (v : Value) : ButtonDef :=
  {| clickable := clickable b; th := th b; disabler := disabler b;
     Width := v; Style := Style b |}.

(** The separator style with another colour. *)
Definition set_color (s : SeparatorStyle) (c : Colour) : SeparatorStyle :=
  {| padding := padding s; thickness := thickness s; color := c |}.

(** [unit.Dp(v)] and the zero [unit.Value]. *)
Definition unitDp (v : Q) : Value := {| V := v; U := UnitDp |}.
Definition zeroValue : Value := {| V := 0; U := UnitPx |}.

(** [layout.Dimensions{}] and [layout.Exact(size)]. *)
Definition zeroDims : Dimensions := {| Size := Pt 0 0 |}.
Definition Exact (size : Point) : Constraints := {| Min := size; Max := size |}.

(* ------------------------------------------------------------------ *)
(** ** Button options, construction, label and icon *)

(** The fields of [ButtonDef{}] after [b.th = th] and [b.Style = style],
    with the clickable [ck]: no disabler, the zero width. *)
Definition newButtonDef (ck : Clickable) (t : Theme) (style : ButtonStyle) : ButtonDef :=
  {| clickable := ck; th := t; disabler := None; Width := zeroValue; Style := style |}.

(** [layout.StackChild]: [Stacked(w)] or [Expanded(w)]. *)
Inductive StackChild :=
| Stacked (w : Widget)
| Expanded (w : Widget).

(** [text.Weight], as far as the button sets it. *)
Inductive Weight := WeightNormal | WeightMedium | WeightBold.

Module Btn.

Section WithAction.

(** What running a handler [f()] amounts to, and the type of icons. *)
Variable Action : Type.
Variable IconT : Type.

(** The whole [ButtonDef]: the fields of the record above in [base], and
    the remaining ones.  [Tooltip] is [None] for the zero tooltip and
    [Some s] for [PlatformTooltip(th, s)]. *)
Record ButtonFull := {
  base : ButtonDef;
  BtnText : string;
  helptext : string;
  Icon : option IconT;
  handler : option (bool -> Action);
  Tooltip : option string;
  FontWeight : Weight;
  btnPadding : Inset
}.

(** [BtnOption] *)
Definition BtnOption := ButtonFull -> ButtonFull.

Definition set_base (b : ButtonFull) (d : ButtonDef) : ButtonFull :=
  {| base := d; BtnText := BtnText b; helptext := helptext b; Icon := Icon b;
     handler := handler b; Tooltip := Tooltip b; FontWeight := FontWeight b;
     btnPadding := btnPadding b |}.

(** [Width(w)]: [b.Width = unit.Dp(w)] *)
Definition Width (w : Q) : BtnOption :=
  fun b => set_base b (set_Width (base b) (unitDp w)).

(** [BtnIcon(i)]: [b.Icon = i] *)
Definition BtnIcon (i : option IconT) : BtnOption :=
  fun b => {| base := base b; BtnText := BtnText b; helptext := helptext b; Icon := i;
              handler := handler b; Tooltip := Tooltip b; FontWeight := FontWeight b;
              btnPadding := btnPadding b |}.

(** [Handler(f)]: [b.handler = func(b bool) { f() }] *)
Definition Handler (f : Action) : BtnOption :=
  fun b => {| base := base b; BtnText := BtnText b; helptext := helptext b; Icon := Icon b;
              handler := Some (fun _ : bool => f); Tooltip := Tooltip b;
              FontWeight := FontWeight b; btnPadding := btnPadding b |}.

(** [Disable(v)]: [b.disabler = v] *)
Definition Disable (v : option bool) : BtnOption :=
  fun b => set_base b (set_disabler (base b) v).

(** [Hint(s)]: [b.helptext = s] *)
Definition Hint (s : string) : BtnOption :=
  fun b => {| base := base b; BtnText := BtnText b; helptext := s; Icon := Icon b;
              handler := handler b; Tooltip := Tooltip b; FontWeight := FontWeight b;
              btnPadding := btnPadding b |}.

(** [b.apply(options)]: the options run in order. *)
Definition apply (b : ButtonFull) (options : list BtnOption) : ButtonFull :=
  fold_left (fun b option => option b) options b.

(** The five options this file provides. *)
Inductive provided : BtnOption -> Prop :=
| provided_Width w : provided (Width w)
| provided_BtnIcon i : provided (BtnIcon i)
| provided_Handler f : provided (Handler f)
| provided_Disable v : provided (Disable v)
| provided_Hint s : provided (Hint s).

(** [b.SetupTabs()], defined with [Clickable] outside the embedded files. *)
Variable SetupTabs : Clickable -> Clickable.

(** The button [Button(style, th, label, options...)] builds and its
    returned closure lays out. *)
Definition Button (style : ButtonStyle) (t : Theme) (label : string)
           (options : list BtnOption) : ButtonFull :=
  let b := {| base := newButtonDef
                        (SetupTabs {| history := []; hovered := false;
                                      focused := false; disabled := false |})
                        t style;
              BtnText := label; helptext := ""; Icon := None; handler := None;
              Tooltip := None; FontWeight := WeightMedium; btnPadding := noInset |} in
  let b := apply b options in
  let b := if String.eqb (helptext b) ""
           then b
           else {| base := base b; BtnText := BtnText b; helptext := helptext b;
                   Icon := Icon b; handler := handler b; Tooltip := Some (helptext b);
                   FontWeight := FontWeight b; btnPadding := btnPadding b |} in
  {| base := base b; BtnText := BtnText b; helptext := helptext b; Icon := Icon b;
     handler := handler b; Tooltip := Tooltip b; FontWeight := FontWeight b;
     btnPadding := {| Top := unitDp 5; Bottom := unitDp 5;
                      Left := unitDp 5; Right := unitDp 5 |} |}.

(** The colour the label is painted with: the [switch] of [layLabel]. *)
Definition labelColor (b : ButtonDef) (gtx : Context) : list Op :=
  let isText := ButtonStyle_eqb (Style b) Text in
  let isOutlined := ButtonStyle_eqb (Style b) Outlined in
  let isContained := ButtonStyle_eqb (Style b) Contained in
  if (isText || isOutlined) && negb (Queue gtx) then [ColorOp (DisabledC ThPrimary)]
  else if isOutlined && Hovered b then [ColorOp (HoveredC ThPrimary)]
  else if isContained then [ColorOp ThOnPrimary]
  else if isOutlined || isText then [ColorOp ThPrimary]
  else [].

(** [layout.Inset.Layout], the label and icon layouts, [gtx.Px] and the
    theme's label inset, icon inset and text size: all outside the embedded
    files. *)
Variable InsetLayout : Inset -> Context -> Widget -> list Op * Dimensions.
Variable aLabelLayout : ButtonFull -> Context -> list Op * Dimensions.
Variable IconLayout : IconT -> Colour -> Context -> list Op * Dimensions.
Variable Px : Context -> Value -> Z.
Variable LabelInset : Theme -> Inset.
Variable IconInset : Theme -> Inset.
Variable TextSize : Theme -> Value.

(** [layLabel(b)] *)
Definition layLabel (b : ButtonFull) : Widget :=
  if String.eqb (BtnText b) "" then fun _ => ([], zeroDims)
  else fun gtx =>
         InsetLayout (LabelInset (th (base b))) gtx
           (fun gtx =>
              let r := aLabelLayout b gtx in
              (labelColor (base b) gtx ++ fst r, snd r)).

(** [layIcon(b)] *)
Definition layIcon (b : ButtonFull) : Widget :=
  match Icon b with
  | Some ic =>
      fun gtx =>
        let inset := IconInset (th (base b)) in
        let inset :=
          if negb (String.eqb (BtnText b) "")
          then {| Top := Top inset; Bottom := Bottom inset; Left := Left inset;
                  Right := unitDp 0 |}
          else inset in
        InsetLayout inset gtx
          (fun gtx =>
             let size := Px gtx (Scale (TextSize (th (base b))) 1.2) in
             IconLayout ic ThOnPrimary (withCs gtx (Exact (Pt size size))))
  | None => fun _ => ([], zeroDims)
  end.

(** The layouts [ButtonDef.Layout] delegates to, all outside the embedded
    files: [b.Tooltip.Layout(gtx, tip, w)] of this package,
    [layout.Stack{Alignment: layout.Center}.Layout] and
    [layout.Flex{...}.Layout] of the layout library, the methods
    [LayoutClickable], [HandleClicks] and [HandleKeys] of the clickable,
    [Pxr] and the global [GlobalDisable]. *)
Variable TooltipLayout : Context -> option string -> Widget -> list Op * Dimensions.
Variable StackLayout : Context -> list StackChild -> list Op * Dimensions.
Variable FlexLayout : layout.Flex -> Context -> list layout.FlexChild -> list Op * Dimensions.
Variable LayoutClickable : ButtonFull -> Widget.
Variable HandleClicks : ButtonFull -> Widget.
Variable HandleKeys : ButtonFull -> Widget.
Variable Pxr : Context -> Value -> Q.
Variable GlobalDisable : bool.

(** The widget handed to [Tooltip.Layout] by [ButtonDef.Layout]: the
    disabling step, the minimum width, then the padding around the stack
    of background, content (icon and label in a flex whose minimum is
    [min]) and the three layers of the clickable. *)
Definition LayoutContent (b : ButtonFull) : Widget :=
  fun gtx =>
    let r := Layout_disable GlobalDisable (base b) gtx in
    let b := set_base b (fst r) in
    let gtx := snd r in
    let min := Layout_min Px (base b) gtx in
    InsetLayout (btnPadding b) gtx
      (fun gtx =>
         StackLayout gtx
           [ Expanded (LayoutBackground Pxr (base b));
             Stacked (fun gtx =>
                        FlexLayout {| layout.FlexAxis := layout.Horizontal;
                                      layout.FlexSpacing := layout.SpaceSides;
                                      layout.FlexAlignment := layout.Middle |}
                                   (withCs gtx {| Min := min; Max := Max (Cs gtx) |})
                                   [layout.Rigid (layIcon b); layout.Rigid (layLabel b)]);
             Expanded (LayoutClickable b);
             Expanded (HandleClicks b);
             Expanded (HandleKeys b) ]).

(** [b.Layout(gtx)]: what [Tooltip.Layout] returns for the content. *)
Definition Layout (b : ButtonFull) (gtx : Context) : list Op * Dimensions :=
  TooltipLayout gtx (Tooltip b) (LayoutContent b).

End WithAction.

Arguments LayoutContent {_ _} _ _ _ _ _ _ _ _ _ _ _ _ _ _ _ _.
Arguments Layout {_ _} _ _ _ _ _ _ _ _ _ _ _ _ _ _ _ _ _.
Arguments base {_ _} _.
Arguments BtnText {_ _} _.
Arguments helptext {_ _} _.
Arguments Icon {_ _} _.
Arguments handler {_ _} _.
Arguments Tooltip {_ _} _.
Arguments FontWeight {_ _} _.
Arguments btnPadding {_ _} _.
Arguments Width {_ _} _ _.
Arguments BtnIcon {_ _} _ _.
Arguments Handler {_ _} _ _.
Arguments Disable {_ _} _ _.
Arguments Hint {_ _} _ _.
Arguments apply {_ _} _ _.
Arguments provided {_ _} _.
Arguments Button {_ _} _ _ _ _ _.
Arguments layLabel {_ _} _ _ _ _ _.
Arguments layIcon {_ _} _ _ _ _ _ _ _.

End Btn.

(** The nearest value to [x] in [lo; hi]. *)
Definition clampZ (lo hi x : Z) : Z :=
  if (x <? lo)%Z then lo else if (hi <? x)%Z then hi else x.

(** Modelled from the spec: [Tooltip.Layout] of this package (wid/tooltip.go
    is not among the embedded files; [ButtonDef.Layout] returns its result).
    The spec has every measure+paint call return a concrete size with
    [min <= size <= max] componentwise, a requested size outside [min; max]
    being clamped silently to the nearest valid value: the tooltip lays out
    the widget it wraps and returns the size that widget asks for, clamped
    to the constraints. *)
Definition TooltipLayoutSpec (gtx : Context) (tip : option string) (w : Widget)
  : list Op * Dimensions :=
  let r := w gtx in
  (fst r,
   {| Size := Pt (clampZ (X (Min (Cs gtx))) (X (Max (Cs gtx))) (X (Size (snd r))))
                 (clampZ (Y (Min (Cs gtx))) (Y (Max (Cs gtx))) (Y (Size (snd r)))) |}).

(* ------------------------------------------------------------------ *)
(** ** The demo program *)

Module demo.

(** [app.WindowMode] *)
Inductive WindowMode := Windowed | Fullscreen.

(** The globals the frame handler reads and writes; [TextSize] is
    [currentTheme.TextSize], [winOptions] lists the modes passed to
    [win.Option], in order, and [setups] counts the calls of [setup]. *)
Record Globals := {
  mode : string;
  fontSize : string;
  oldMode : string;
  oldFontSize : string;
  oldWindowSize : Point;
  TextSize : Value;
  winOptions : list WindowMode;
  setups : nat
}.

(** [modeFromString(s)]: the switch tests the global [mode]. *)
Definition modeFromString (g : Globals) (s : string) : WindowMode :=
  if String.eqb (mode g) "fullscreen" then Fullscreen
  else if String.eqb (mode g) "default" then Windowed
  else Windowed.

(** [updateMode()] *)
Definition updateMode (g : Globals) : Globals :=
  if negb (String.eqb (mode g) (oldMode g)) then
    {| mode := mode g; fontSize := fontSize g; oldMode := mode g;
       oldFontSize := oldFontSize g; oldWindowSize := oldWindowSize g;
       TextSize := TextSize g;
       winOptions := winOptions g ++ [modeFromString g (mode g)];
       setups := setups g |}
  else g.

(** [setup()]: builds the widget tree of the current page and hands it
    to package [wid]; it assigns none of the globals above, so only the
    call is counted. *)
Definition setup (g : Globals) : Globals :=
  {| mode := mode g; fontSize := fontSize g; oldMode := oldMode g;
     oldFontSize := oldFontSize g; oldWindowSize := oldWindowSize g;
     TextSize := TextSize g; winOptions := winOptions g; setups := S (setups g) |}.

(** The text size chosen by the [switch fontSize] for a window of
    height [y]. *)
Definition textSizeFor (g : Globals) (y : Z) : Value :=
  if String.eqb (fontSize g) "medium" || String.eqb (fontSize g) "Medium"
  then unitDp (inject_Z y / 60)
  else if String.eqb (fontSize g) "large" || String.eqb (fontSize g) "Large"
  then unitDp (inject_Z y / 45)
  else if String.eqb (fontSize g) "small" || String.eqb (fontSize g) "Small"
  then unitDp (inject_Z y / 80)
  else TextSize g.

(** The test at the head of [handleFrameEvents]. *)
Definition changed (g : Globals) (size : Point) : bool :=
  negb (X (oldWindowSize g) =? X size)%Z
  || negb (Y (oldWindowSize g) =? Y size)%Z
  || negb (String.eqb (mode g) (oldMode g))
  || negb (String.eqb (fontSize g) (oldFontSize g)).

(** The [if] block at the head of [handleFrameEvents(e)], for a frame
    event of size [size]. *)
Definition rebuildIfChanged (g : Globals) (size : Point) : Globals :=
  if changed g size then
    let g := {| mode := mode g; fontSize := fontSize g; oldMode := oldMode g;
                oldFontSize := fontSize g; oldWindowSize := size;
                TextSize := textSizeFor g (Y size);
                winOptions := winOptions g; setups := setups g |} in
    setup (updateMode g)
  else g.

(** [handleFrameEvents(e)], as far as the globals go: the block above,
    then the drawing of the frame.  [Root] stands for [wid.Root(gtx)],
    which lays out the widgets and lets them write the globals they hold
    pointers to (a radio button writes [mode] or [fontSize]). *)
Definition handleFrameEvents (Root : Globals -> Globals) (g : Globals) (size : Point)
  : Globals :=
  Root (rebuildIfChanged g size).

(** The body of the progress case of the event loop:
    [progress += pg; if progress > 1 { progress = 0 }].  The [float32]
    sum is idealised as the exact rational sum, so the step at which a run
    of equal increments first exceeds 1 can differ by one from the code's. *)
Definition progressTick (progress pg : Q) : Q :=
  let progress := (progress + pg)%Q in
  if Qgtb progress 1 then 0%Q else progress.

(** [onClick()] on the flag [green] and on [thb.Primary]; [thb] is [None]
    while the pointer is nil, where the assignment panics. *)
Definition onClick (green : bool) (thb : option Colour) : option (bool * Colour) :=
  let green := negb green in
  match thb with
  | None => None
  | Some _ =>
      if green then Some (green, NRGBA 0 157 0 255)
      else Some (green, NRGBA 0 0 255 255)
  end.

(** [n] clicks in a row, from the flag and the colour in [st]. *)
Fixpoint clicks (n : nat) (st : bool * Colour) : option (bool * Colour) :=
  match n with
  | O => Some st
  | S n =>
      match onClick (fst st) (Some (snd st)) with
      | Some st' => clicks n st'
      | None => None
      end
  end.

(** The progress after the increments [pgs] have arrived, in order. *)
Definition progressAfter (pgs : list Q) (progress : Q) : Q :=
  fold_left progressTick pgs progress.

(** The globals with another font size name. *)
Definition withFontSize (g : Globals) (name : string) : Globals :=
  {| mode := mode g; fontSize := name; oldMode := oldMode g;
     oldFontSize := oldFontSize g; oldWindowSize := oldWindowSize g;
     TextSize := TextSize g; winOptions := winOptions g; setups := setups g |}.

End demo.

(* ================================================================== *)
(** * Properties *)

(* ------------------------------------------------------------------ *)
(** ** Comparisons, durations *)

Lemma Qgtb_true (x y : Q) : Qgtb x y = true <-> (y < x)%Q.
Proof.
  unfold Qgtb. rewrite negb_true_iff.
  split; intro H.
  - apply Qnot_le_lt. intro L. apply Qle_bool_iff in L. congruence.
  - destruct (Qle_bool x y) eqn:E; trivial.
    apply Qle_bool_iff in E. apply Qle_not_lt in E. contradiction.
Qed.

Lemma Qgtb_false (x y : Q) : Qgtb x y = false <-> (x <= y)%Q.
Proof.
  unfold Qgtb. rewrite negb_false_iff. apply Qle_bool_iff.
Qed.

Lemma Qleb_true (x y : Q) : Qleb x y = true <-> (x <= y)%Q.
Proof. apply Qle_bool_iff. Qed.

Lemma Qmax_cases (x y : Q) :
  ((x < y)%Q /\ (Qmax x y == y)%Q) \/ ((y <= x)%Q /\ (Qmax x y == x)%Q).
Proof. apply Q.max_spec. Qed.

Lemma Qmin_cases (x y : Q) :
  ((x < y)%Q /\ (Qmin x y == x)%Q) \/ ((y <= x)%Q /\ (Qmin x y == y)%Q).
Proof. apply Q.min_spec. Qed.

(** [Seconds] is the exact quotient by 10^9. *)
Lemma Seconds_exact (d : time.Duration) :
  (time.Seconds d == inject_Z d / 1000000000)%Q.
Proof.
  unfold time.Seconds, time.Second.
  rewrite (Z.quot_rem' d 1000000000) at 3.
  rewrite inject_Z_plus, inject_Z_mult. field.
Qed.

Lemma Seconds_le (d e : time.Duration) :
  d <= e -> (time.Seconds d <= time.Seconds e)%Q.
Proof.
  intro H. rewrite !Seconds_exact.
  apply Qmult_le_compat_r; [ now rewrite <- Zle_Qle | discriminate ].
Qed.

Lemma Seconds_0 : (time.Seconds 0%Z == 0)%Q.
Proof. reflexivity. Qed.

Lemma Sub_self (t : time.Time) : time.Sub t t = 0.
Proof. unfold time.Sub. now rewrite Z.sub_diag. Qed.

(** Inside the range of a [Duration], [Sub] is the difference. *)
Lemma Sub_exact (t u : time.Time) :
  time.minDuration <= t - u <= time.maxDuration -> time.Sub t u = t - u.
Proof.
  intros [H1 H2]. unfold time.Sub.
  destruct (Z.ltb_spec (t - u) time.minDuration); [lia|].
  destruct (Z.ltb_spec time.maxDuration (t - u)); [lia|]. reflexivity.
Qed.

(** [Sub] is monotone in its first argument, saturation included. *)
Lemma Sub_mono (t t' u : time.Time) : t <= t' -> time.Sub t u <= time.Sub t' u.
Proof.
  intro H. unfold time.Sub, time.minDuration, time.maxDuration.
  destruct (Z.ltb_spec (t - u) (- 2 ^ 63));
    destruct (Z.ltb_spec (t' - u) (- 2 ^ 63));
    destruct (Z.ltb_spec (2 ^ 63 - 1) (t - u));
    destruct (Z.ltb_spec (2 ^ 63 - 1) (t' - u)); lia.
Qed.

(* ------------------------------------------------------------------ *)
(** ** The locals of drawInk *)

(** The fade-in position is one half whatever the elapsed time: the
    maximum with 0.5 is at least 0.5 and the cap brings it back to 0.5. *)
Lemma ink_half1_half (gtx : Context) (c : Press) : (ink_half1 gtx c == 0.5)%Q.
Proof.
  unfold ink_half1.
  set (x := (ink_t gtx c / 0.9 + ink_haste gtx c)%Q).
  destruct (Qgtb (Qmax x 0.5) 0.5) eqn:E; [reflexivity|].
  apply Qgtb_false in E.
  destruct (Qmax_cases x 0.5) as [[H1 H2]|[H1 H2]].
  - exact H2.
  - rewrite H2 in *. apply Qle_antisym; assumption.
Qed.

(** The clamp of [sizet] makes the second disjunct of the redraw test
    hold always. *)
Lemma ink_sizet_le_1 (gtx : Context) (c : Press) : (ink_sizet gtx c <= 1.0)%Q.
Proof. unfold ink_sizet. apply Q.le_min_r. Qed.

Lemma ink_invalidate_true (gtx : Context) (c : Press) : ink_invalidate gtx c = true.
Proof.
  unfold ink_invalidate. apply orb_true_iff. right.
  apply Qleb_true, ink_sizet_le_1.
Qed.

(** What a call that does not return early adds. *)
Lemma drawInk_painted (gtx : Context) (c : Press) :
  ink_faded gtx c = false ->
  drawInk gtx c =
    [ InvalidateOp; SaveOp;
      ColorOp (MulAlpha (NRGBA 128 128 128 255) (ink_ba gtx c));
      OffsetOp (FPt (FX (Position c) + - ink_rr gtx c) (FY (Position c) + - ink_rr gtx c));
      UniformRRectOp (FPt (2 * ink_rr gtx c) (2 * ink_rr gtx c)) (ink_rr gtx c);
      PaintOp; LoadOp ].
Proof.
  intro H. unfold drawInk. rewrite H, ink_invalidate_true. reflexivity.
Qed.

Lemma drawInk_nil_iff (gtx : Context) (c : Press) :
  drawInk gtx c = [] <-> ink_faded gtx c = true.
Proof.
  split; intro H.
  - destruct (ink_faded gtx c) eqn:E; trivial.
    rewrite (drawInk_painted _ _ E) in H. discriminate.
  - unfold drawInk. now rewrite H.
Qed.

(** [drawInk] reads the time and the constraints of the context only. *)
Lemma drawInk_ext (g g' : Context) (c : Press) :
  Now g = Now g' -> Cs g = Cs g' -> drawInk g c = drawInk g' c.
Proof.
  intros HN HC.
  unfold drawInk, ink_faded, ink_invalidate, ink_ba, ink_alpha, ink_t2, ink_alphat,
    ink_alphat0, ink_half1, ink_half2, ink_rr, ink_sizet, ink_size, ink_texp, ink_haste,
    ink_endt, ink_end, ink_t.
  rewrite HN, HC. reflexivity.
Qed.

(** For a press that has not ended, [end] is [now], so the fade-out
    position is the haste alone. *)
Lemma ink_half2_open (gtx : Context) (c : Press) :
  time.IsZero (End c) = true -> (ink_half2 gtx c == ink_haste gtx c)%Q.
Proof.
  intro H. unfold ink_half2, ink_end. rewrite H, Sub_self, Seconds_0.
  field.
Qed.

Lemma ink_haste_not_cancelled (gtx : Context) (c : Press) :
  Cancelled c = false -> ink_haste gtx c = 0%Q.
Proof. intro H. unfold ink_haste. now rewrite H. Qed.

Lemma ink_alphat_of_half (gtx : Context) (c : Press) :
  (ink_alphat0 gtx c == 0.5)%Q -> (ink_alphat gtx c == 0.5)%Q.
Proof.
  intro H. unfold ink_alphat.
  destruct (Qgtb (ink_alphat0 gtx c) 0.5) eqn:E.
  - apply Qgtb_true in E. rewrite H in E. discriminate E.
  - exact H.
Qed.

Lemma ink_alpha_of_half (gtx : Context) (c : Press) :
  (ink_alphat gtx c == 0.5)%Q -> (ink_alpha gtx c == 1.05)%Q.
Proof.
  intro H. unfold ink_alpha, ink_t2. rewrite H. reflexivity.
Qed.

(* ------------------------------------------------------------------ *)
(** ** C10 *)

(** C10.  For a press whose end time is absent and that is not
    cancelled, [drawInk] paints, and its opacity multiplier [alpha] is
    1.05; [alpha * 0xff] is then 267.75, above 255, before the conversion
    to a byte. *)
Theorem C10_open_press_alpha_exceeds_one (gtx : Context) (c : Press) :
  time.IsZero (End c) = true ->
  Cancelled c = false ->
  ink_faded gtx c = false
  /\ (ink_alpha gtx c == 1.05)%Q
  /\ (ink_alpha gtx c * 255 == 267.75)%Q
  /\ (255 < ink_alpha gtx c * 255)%Q
  /\ In (ColorOp (MulAlpha (NRGBA 128 128 128 255) (ink_ba gtx c))) (drawInk gtx c).
Proof.
  intros HE HC.
  assert (H2 : (ink_half2 gtx c == 0)%Q).
  { rewrite (ink_half2_open gtx c HE), (ink_haste_not_cancelled gtx c HC). reflexivity. }
  assert (HF : ink_faded gtx c = false).
  { unfold ink_faded. apply Qgtb_false. rewrite H2. discriminate. }
  assert (HA : (ink_alpha gtx c == 1.05)%Q).
  { apply ink_alpha_of_half, ink_alphat_of_half. unfold ink_alphat0.
    rewrite ink_half1_half, H2. reflexivity. }
  repeat split; trivial.
  - rewrite HA. reflexivity.
  - rewrite HA. reflexivity.
  - rewrite (drawInk_painted _ _ HF). simpl. tauto.
Qed.

Lemma C10_open_press_alpha_witness :
  (ink_alpha (sampleAt 3000000000) (pressOf 1000000000 0 false) == 1.05)%Q.
Proof.
  exact (proj1 (proj2 (C10_open_press_alpha_exceeds_one
                         (sampleAt 3000000000) (pressOf 1000000000 0 false)
                         eq_refl eq_refl))).
Defined.

(* ------------------------------------------------------------------ *)
(** ** C1 *)

(** C1.  A press started 0.2 s ago, not ended and not cancelled: the
    elapsed time is below 0.45, the haste is 0, and yet the fade-in
    position is already at its cap 0.5 and the ink is painted with the
    full multiplier 1.05.  (By [ink_half1_half] the fade-in position is
    0.5 at every elapsed time: the [math.Max] with 0.5 removes the ramp.) *)
Theorem C1_fade_in_at_cap_after_200ms :
  let gtx := contextAt 1200000000 (Pt 80 30) (Pt 80 30) in
  let c := pressOf 1000000000 0 false in
  (ink_t gtx c == 0.2)%Q
  /\ (ink_t gtx c < 0.45)%Q
  /\ ink_haste gtx c = 0%Q
  /\ (ink_half1 gtx c == 0.5)%Q
  /\ (opacity gtx c == 1.05)%Q.
Proof.
  vm_compute. repeat split; discriminate.
Qed.

(* ------------------------------------------------------------------ *)
(** ** C4 *)

(** C4.  A press held for two seconds, not ended and not cancelled:
    the expansion is complete ([sizet] is 1), the ink is not faded, the
    press has not ended, and [drawInk] still adds the redraw request.
    (By [ink_invalidate_true] the request is added by every call that
    paints: [sizet] is clamped to 1 before the test [sizet <= 1.0].) *)
Theorem C4_redraw_requested_after_full_expansion :
  let gtx := contextAt 3000000000 (Pt 80 30) (Pt 80 30) in
  let c := pressOf 1000000000 0 false in
  time.IsZero (End c) = true
  /\ (ink_sizet gtx c == 1)%Q
  /\ ink_faded gtx c = false
  /\ In InvalidateOp (drawInk gtx c).
Proof.
  vm_compute. repeat split; auto.
Qed.

(* ------------------------------------------------------------------ *)
(** ** C6 *)

(** C6.  [drawInk] adds nothing exactly when
    [(now - end)/0.9 + haste > 0.5], where [end] is the end of the press,
    or [now] while it is absent.  The haste is 0 for a press that is not
    cancelled; when it is not 0 the press is cancelled,
    [0.5 - endT/0.9] is positive and the haste is that quantity. *)
Theorem C6_faded_iff_half2_above_half (gtx : Context) (c : Press) :
  let e := if time.IsZero (End c) then Now gtx else End c in
  let endT := time.Seconds (time.Sub e (Start c)) in
  let haste := ink_haste gtx c in
  (drawInk gtx c = [] <->
     (0.5 < time.Seconds (time.Sub (Now gtx) e) / 0.9 + haste)%Q)
  /\ (Cancelled c = false -> haste = 0%Q)
  /\ (~ (haste == 0)%Q ->
        Cancelled c = true /\ (0 < 0.5 - endT / 0.9)%Q /\ (haste == 0.5 - endT / 0.9)%Q)
  /\ (Cancelled c = true -> (0 < 0.5 - endT / 0.9)%Q ->
        (haste == 0.5 - endT / 0.9)%Q).
Proof.
  cbv zeta. repeat split.
  - intro H. apply drawInk_nil_iff in H. apply Qgtb_true in H. exact H.
  - intro H. apply drawInk_nil_iff. apply Qgtb_true. exact H.
  - apply ink_haste_not_cancelled.
  - destruct (Cancelled c) eqn:E; trivial.
    exfalso. apply H. unfold ink_haste. rewrite E. reflexivity.
  - unfold ink_haste, ink_endt, ink_end in H.
    destruct (Cancelled c); [| exfalso; apply H; reflexivity].
    cbv zeta in H.
    match type of H with context [Qgtb ?h 0] => destruct (Qgtb h 0) eqn:E end.
    + apply Qgtb_true in E. exact E.
    + exfalso. apply H. reflexivity.
  - unfold ink_haste, ink_endt, ink_end in *.
    destruct (Cancelled c); [| exfalso; apply H; reflexivity].
    cbv zeta in *.
    match type of H with context [Qgtb ?h 0] => destruct (Qgtb h 0) eqn:E end.
    + reflexivity.
    + exfalso. apply H. reflexivity.
  - intros HC HP. unfold ink_haste, ink_endt, ink_end. rewrite HC. cbv zeta.
    match goal with |- context [Qgtb ?h 0] => destruct (Qgtb h 0) eqn:E end.
    + reflexivity.
    + apply Qgtb_false in E. exfalso. apply (Qlt_not_le _ _ HP E).
Qed.

(* ------------------------------------------------------------------ *)
(** ** C5 *)

(** Once [now] is at least 0.45 s past the end of an ended press, the
    call returns before painting. *)
Lemma faded_after_end (gtx : Context) (c : Press) :
  time.IsZero (End c) = false ->
  End c + 450000001 <= Now gtx ->
  ink_faded gtx c = true.
Proof.
  intros HE HN. unfold ink_faded. apply Qgtb_true.
  assert (HH : (0 <= ink_haste gtx c)%Q).
  { unfold ink_haste. destruct (Cancelled c); [| discriminate].
    cbv zeta.
    match goal with |- context [Qgtb ?h 0] => destruct (Qgtb h 0) eqn:E end.
    - apply Qgtb_true in E. apply Qlt_le_weak, E.
    - discriminate. }
  unfold ink_half2, ink_end. rewrite HE.
  assert (HS : (time.Seconds 450000001%Z <= time.Seconds (time.Sub (Now gtx) (End c)))%Q).
  { apply Seconds_le.
    etransitivity; [| apply (Sub_mono _ _ _ HN)].
    rewrite Sub_exact; unfold time.minDuration, time.maxDuration; lia. }
  rewrite Seconds_exact in HS.
  set (s := time.Seconds (time.Sub (Now gtx) (End c))) in *.
  assert (HD : (s / 0.9 == s * (10 # 9))%Q) by (field).
  rewrite HD. 
  assert (H1 : (inject_Z 450000001 / 1000000000 == 450000001 # 1000000000)%Q) by reflexivity.
  rewrite H1 in HS. lra.
Qed.

(** C5.  The press with start 0 and end 0.3 s, sampled at
    now = 0, 0.2, 0.5, 1.0 and 2.0 s: the opacity multipliers are
    7/36, 3773/4860, 455/972, 0 and 0 (bytes 49, 197 and 119 for the three
    painted samples); the peak is at 0.2 s and the values do not increase
    after it; and for every now at or beyond end + 0.9 s the call adds
    nothing, so the opacity is 0. *)
Theorem C5_fade_samples_decrease_after_peak :
  (opacity (sampleAt 0) press03 == 7 # 36)%Q
  /\ (opacity (sampleAt 200000000) press03 == 3773 # 4860)%Q
  /\ (opacity (sampleAt 500000000) press03 == 455 # 972)%Q
  /\ (opacity (sampleAt 1000000000) press03 == 0)%Q
  /\ (opacity (sampleAt 2000000000) press03 == 0)%Q
  /\ ink_ba (sampleAt 0) press03 = 49
  /\ ink_ba (sampleAt 200000000) press03 = 197
  /\ ink_ba (sampleAt 500000000) press03 = 119
  /\ (opacity (sampleAt 0) press03 <= opacity (sampleAt 200000000) press03)%Q
  /\ (opacity (sampleAt 500000000) press03 <= opacity (sampleAt 200000000) press03)%Q
  /\ (opacity (sampleAt 1000000000) press03 <= opacity (sampleAt 500000000) press03)%Q
  /\ (opacity (sampleAt 2000000000) press03 <= opacity (sampleAt 1000000000) press03)%Q
  /\ drawInk (sampleAt 1000000000) press03 = []
  /\ drawInk (sampleAt 2000000000) press03 = []
  /\ (forall now, End press03 + 900000000 <= now ->
        drawInk (sampleAt now) press03 = [] /\ opacity (sampleAt now) press03 = 0%Q).
Proof.
  do 14 (split; [vm_compute; first [reflexivity | discriminate] |]).
  intros now H.
  assert (F : ink_faded (sampleAt now) press03 = true).
  { apply faded_after_end; simpl in *; [reflexivity | lia]. }
  split.
  - apply drawInk_nil_iff, F.
  - unfold opacity. now rewrite F.
Qed.

(* ------------------------------------------------------------------ *)
(** ** C7 *)

(** [Sqrt2] squares to 2 up to 2^-50. *)
Lemma Sqrt2_square : (Qabs (Sqrt2 * Sqrt2 - 2) < 1 # 1125899906842624)%Q.
Proof. vm_compute. reflexivity. Qed.

Lemma ease_0 : (ease 0 == 0)%Q.
Proof. reflexivity. Qed.

Lemma ease_1 : (ease 1 == 1)%Q.
Proof. reflexivity. Qed.

(** The ease curve does not decrease on [0;1]. *)
Lemma ease_mono (a b : Q) : (0 <= a)%Q -> (a <= b)%Q -> (b <= 1)%Q -> (ease a <= ease b)%Q.
Proof.
  intros Ha Hab Hb. unfold ease.
  assert (E : (3 * b * b - 2 * b * b * b - (3 * a * a - 2 * a * a * a)
               == (b - a) * (a * (3 - 2 * a - b) + b * (3 - 2 * b - a)))%Q) by ring.
  assert (P1 : (0 <= a * (3 - 2 * a - b))%Q) by (apply Qmult_le_0_compat; lra).
  assert (P2 : (0 <= b * (3 - 2 * b - a))%Q) by (apply Qmult_le_0_compat; lra).
  assert (P : (0 <= (b - a) * (a * (3 - 2 * a - b) + b * (3 - 2 * b - a)))%Q)
    by (apply Qmult_le_0_compat; lra).
  rewrite <- E in P. lra.
Qed.

Lemma ease_nonneg (a : Q) : (0 <= a)%Q -> (a <= 1)%Q -> (0 <= ease a)%Q.
Proof.
  intros H0 H1. rewrite <- ease_0. apply ease_mono; lra.
Qed.

(** The radius is the size times [Sqrt2] times the ease of [sizet]. *)
Lemma ink_rr_ease (gtx : Context) (c : Press) :
  (ink_rr gtx c == ink_size gtx * Sqrt2 * ease (ink_sizet gtx c))%Q.
Proof. unfold ink_rr, ease. ring. Qed.

(** For a non-negative elapsed time, [sizet] is twice that time clamped
    to [0;1]. *)
Lemma ink_sizet_clamp (gtx : Context) (c : Press) :
  (0 <= ink_texp gtx c)%Q ->
  (ink_sizet gtx c == clamp01 (2 * ink_texp gtx c))%Q.
Proof.
  intro H. unfold ink_sizet, clamp01.
  assert (M : (Qmin (ink_texp gtx c * 2) 1.0 == Qmin (2 * ink_texp gtx c) 1)%Q).
  { apply Q.min_compat; [ring | reflexivity]. }
  rewrite M.
  destruct (Qmin_cases (2 * ink_texp gtx c) 1) as [[A B]|[A B]];
    rewrite B; symmetry; apply Q.max_r; lra.
Qed.

Lemma ink_sizet_range (gtx : Context) (c : Press) :
  (0 <= ink_texp gtx c)%Q -> (0 <= ink_sizet gtx c <= 1)%Q.
Proof.
  intro H. split.
  - unfold ink_sizet. apply Q.min_glb; [lra | discriminate].
  - assert (L := ink_sizet_le_1 gtx c).
    assert (O : (1.0 == 1)%Q) by reflexivity. rewrite O in L. exact L.
Qed.

Lemma ink_sizet_mono (g g' : Context) (c c' : Press) :
  (ink_texp g c <= ink_texp g' c')%Q -> (ink_sizet g c <= ink_sizet g' c')%Q.
Proof.
  intro H. unfold ink_sizet. apply Q.min_le_compat_r. lra.
Qed.

Lemma ink_size_nonneg (gtx : Context) :
  0 <= X (Min (Cs gtx)) -> (0 <= ink_size gtx)%Q.
Proof.
  intro H. unfold ink_size.
  apply Qle_trans with (inject_Z (X (Min (Cs gtx)))).
  - change 0%Q with (inject_Z 0). now rewrite <- Zle_Qle.
  - apply Q.le_max_r.
Qed.

(** The elapsed time of a cancelled press with an end time does not
    depend on [now]. *)
Lemma ink_texp_frozen (g g' : Context) (c : Press) :
  Cancelled c = true -> time.IsZero (End c) = false ->
  ink_texp g c = ink_texp g' c.
Proof.
  intros HC HE. unfold ink_texp, ink_endt, ink_end. now rewrite HC, HE.
Qed.
Lemma Qmult_le_l_weak (k a b : Q) : (0 <= k)%Q -> (a <= b)%Q -> (k * a <= k * b)%Q.
Proof.
  intros Hk Hab. rewrite (Qmult_comm k a), (Qmult_comm k b).
  apply Qmult_le_compat_r; assumption.
Qed.

Lemma ease_compat (a b : Q) : (a == b)%Q -> (ease a == ease b)%Q.
Proof. intro H. unfold ease. rewrite H. reflexivity. Qed.

(** The radius for a non-negative elapsed time [ink_texp] and a
    non-negative size. *)
Lemma ink_radius_core (gtx : Context) (c : Press) :
  (0 <= ink_texp gtx c)%Q ->
  0 <= X (Min (Cs gtx)) ->
  ink_texp gtx c = (if Cancelled c then ink_endt gtx c else ink_t gtx c)
  /\ (ink_size gtx == Qmax (inject_Z (Y (Min (Cs gtx)))) (inject_Z (X (Min (Cs gtx)))))%Q
  /\ (ink_rr gtx c == ink_size gtx * Sqrt2 * ease (clamp01 (2 * ink_texp gtx c)))%Q
  /\ ((ink_texp gtx c == 0)%Q -> (ink_rr gtx c == 0)%Q)
  /\ ((1 # 2 <= ink_texp gtx c)%Q -> (ink_rr gtx c == ink_size gtx * Sqrt2)%Q)
  /\ (0 <= ink_rr gtx c <= ink_size gtx * Sqrt2)%Q
  /\ (forall (g' : Context) (c' : Press),
        Cs g' = Cs gtx -> (ink_texp gtx c <= ink_texp g' c')%Q ->
        (ink_rr gtx c <= ink_rr g' c')%Q)
  /\ (Cancelled c = true -> time.IsZero (End c) = false ->
        forall g' : Context, Cs g' = Cs gtx -> ink_rr g' c = ink_rr gtx c)
  /\ (ink_faded gtx c = false ->
        In (UniformRRectOp (FPt (2 * ink_rr gtx c) (2 * ink_rr gtx c)) (ink_rr gtx c))
           (drawInk gtx c)).
Proof.
  intros Ht Hx.
  assert (Hs := ink_size_nonneg gtx Hx).
  assert (Hq : (0 <= Sqrt2)%Q) by discriminate.
  assert (Hk : (0 <= ink_size gtx * Sqrt2)%Q) by (apply Qmult_le_0_compat; assumption).
  assert (Hr := ink_sizet_range gtx c Ht).
  assert (Hc := ink_sizet_clamp gtx c Ht).
  repeat match goal with |- _ /\ _ => split end.
  - reflexivity.
  - reflexivity.
  - rewrite ink_rr_ease. rewrite (ease_compat _ _ Hc). reflexivity.
  - intro H0. rewrite ink_rr_ease.
    assert (Z0 : (ink_sizet gtx c == 0)%Q).
    { rewrite Hc. unfold clamp01. rewrite H0.
      vm_compute. reflexivity. }
    rewrite (ease_compat _ _ Z0), ease_0. ring.
  - intro H1. rewrite ink_rr_ease.
    assert (Z1 : (ink_sizet gtx c == 1)%Q).
    { apply Qle_antisym; [apply Hr|].
      unfold ink_sizet. apply Q.min_glb; [lra | discriminate]. }
    rewrite (ease_compat _ _ Z1), ease_1. ring.
  - rewrite ink_rr_ease.
    apply Qmult_le_0_compat; [exact Hk | apply ease_nonneg; apply Hr].
  - rewrite ink_rr_ease.
    assert (E1 : (ease (ink_sizet gtx c) <= 1)%Q).
    { rewrite <- ease_1. apply ease_mono; try apply Hr. apply Qle_refl. }
    setoid_replace (ink_size gtx * Sqrt2)%Q with (ink_size gtx * Sqrt2 * 1)%Q at 2 by ring.
    apply Qmult_le_l_weak; assumption.
  - intros g' c' HC Hle.
    rewrite !ink_rr_ease.
    assert (S : ink_size g' = ink_size gtx) by (unfold ink_size; now rewrite HC).
    rewrite S.
    apply Qmult_le_l_weak; [exact Hk|].
    assert (Ht' : (0 <= ink_texp g' c')%Q) by lra.
    apply ease_mono.
    + apply Hr.
    + apply ink_sizet_mono, Hle.
    + apply (ink_sizet_range g' c' Ht').
  - intros HCn HE g' HC.
    unfold ink_rr, ink_sizet, ink_size.
    rewrite (ink_texp_frozen g' gtx c HCn HE), HC. reflexivity.
  - intro HF. rewrite (drawInk_painted _ _ HF). simpl. tauto.
Qed.

Lemma Seconds_nonneg (d : time.Duration) : 0 <= d -> (0 <= time.Seconds d)%Q.
Proof.
  intro H. rewrite <- Seconds_0. apply Seconds_le, H.
Qed.

Lemma Sub_nonneg (t u : time.Time) : u <= t -> 0 <= time.Sub t u.
Proof.
  intro H. rewrite <- (Sub_self u). apply Sub_mono, H.
Qed.



(* ------------------------------------------------------------------ *)
(** ** C8 *)

Lemma History_set_disabled (b : ButtonDef) (d : bool) :
  History (set_disabled b d) = History b.
Proof. reflexivity. Qed.

(** The disabling step of [Layout] keeps the press history, and changes
    neither the time nor the constraints of the context. *)
Lemma Layout_disable_keeps (G : bool) (b : ButtonDef) (gtx : Context) :
  History (fst (Layout_disable G b gtx)) = History b
  /\ Now (snd (Layout_disable G b gtx)) = Now gtx
  /\ Cs (snd (Layout_disable G b gtx)) = Cs gtx.
Proof.
  unfold Layout_disable.
  destruct ((match disabler (set_disabled b false) with Some v => v | None => false end) || G);
    simpl; auto.
Qed.

Lemma inkLoop_ext (b b' : ButtonDef) (g g' : Context) :
  History b = History b' -> Now g = Now g' -> Cs g = Cs g' ->
  inkLoop b g = inkLoop b' g'.
Proof.
  intros HH HN HC. unfold inkLoop. rewrite HH. clear HH.
  generalize (History b'). intro l.
  induction l as [|c l IH]; simpl; [reflexivity|].
  rewrite IH, (drawInk_ext g g' c HN HC). reflexivity.
Qed.

(** C8.  Whatever the disabler and the global flag: the disabling step
    of [Layout] sets the [disabled] flag and empties the queue when the
    disabler points to [true] or the global flag is set, and it keeps the
    press history; [LayoutBackground], called with any constraints [cs]
    the enclosing layout passes down, adds after its background the
    operations of [drawInk] for every record of that history, in order;
    these ink operations are the same under any two settings of the
    disabler and the global flag. *)
Theorem C8_disabled_keeps_ink (Pxr : Context -> Value -> Q)
        (G1 G2 : bool) (d1 d2 : option bool)
        (b : ButtonDef) (gtx : Context) (cs : Constraints) :
  let r1 := Layout_disable G1 (set_disabler b d1) gtx in
  let r2 := Layout_disable G2 (set_disabler b d2) gtx in
  (G1 = true \/ d1 = Some true ->
     disabled (clickable (fst r1)) = true /\ Queue (snd r1) = false)
  /\ History (fst r1) = History b
  /\ fst (LayoutBackground Pxr (fst r1) (withCs (snd r1) cs))
     = paintBackground Pxr (fst r1) (withCs (snd r1) cs)
       ++ flat_map (drawInk (withCs gtx cs)) (History b)
  /\ inkLoop (fst r1) (withCs (snd r1) cs) = inkLoop (fst r2) (withCs (snd r2) cs).
Proof.
  cbv zeta.
  destruct (Layout_disable_keeps G1 (set_disabler b d1) gtx) as (HH1 & HN1 & HC1).
  destruct (Layout_disable_keeps G2 (set_disabler b d2) gtx) as (HH2 & HN2 & HC2).
  change (History (set_disabler b d1)) with (History b) in HH1.
  change (History (set_disabler b d2)) with (History b) in HH2.
  repeat match goal with |- _ /\ _ => split end.
  - intros [HG | HD]; subst; unfold Layout_disable; simpl.
    + rewrite orb_true_r. simpl. auto.
    + simpl. auto.
  - exact HH1.
  - unfold LayoutBackground. simpl. f_equal.
    apply (inkLoop_ext _ b); [exact HH1 | simpl; exact HN1 | reflexivity].
  - apply inkLoop_ext.
    + now rewrite HH1, HH2.
    + simpl. now rewrite HN1, HN2.
    + reflexivity.
Qed.

(* ------------------------------------------------------------------ *)
(** ** C3 *)


(** The sizes [Separator] and [LayoutBackground] return and the minimum
    [Layout] computes, against the constraints. *)
Lemma separator_and_background_sizes
        (Px : Context -> Value -> Z) (Pxr : Context -> Value -> Q)
        (s : SeparatorStyle) (b : ButtonDef) (gtx : Context) :
  let h := int (int (Px gtx (thickness s) + Px gtx (Top (padding s)))
                + Px gtx (Bottom (padding s))) in
  Size (snd (Separator Px s gtx)) = Pt (X (Max (Cs gtx))) h
  /\ (within (Cs gtx) (Size (snd (Separator Px s gtx)))
      <-> X (Min (Cs gtx)) <= X (Max (Cs gtx))
          /\ Y (Min (Cs gtx)) <= h <= Y (Max (Cs gtx)))
  /\ Size (snd (LayoutBackground Pxr b gtx)) = Min (Cs gtx)
  /\ (within (Cs gtx) (Size (snd (LayoutBackground Pxr b gtx)))
      <-> X (Min (Cs gtx)) <= X (Max (Cs gtx))
          /\ Y (Min (Cs gtx)) <= Y (Max (Cs gtx)))
  /\ X (Layout_min Px b gtx) <= X (Max (Cs gtx))
  /\ Y (Layout_min Px b gtx) = Y (Min (Cs gtx)).
Proof.
  cbv zeta.
  set (h := int (int (Px gtx (thickness s) + Px gtx (Top (padding s)))
                 + Px gtx (Bottom (padding s)))).
  split; [reflexivity|]. split.
  { change (Size (snd (Separator Px s gtx))) with (Pt (X (Max (Cs gtx))) h).
    unfold within. cbn [X Y]. lia. }
  split; [reflexivity|]. split.
  { change (Size (snd (LayoutBackground Pxr b gtx))) with (Min (Cs gtx)).
    unfold within. lia. }
  split.
  - unfold Layout_min. cbv zeta. rewrite Z.gtb_ltb.
    match goal with
    | |- context [if (?a <? ?m) then _ else _] => destruct (Z.ltb_spec a m)
    end; simpl; [lia | assumption].
  - unfold Layout_min. cbv zeta.
    repeat match goal with
           | |- context [if ?t then _ else _] => destruct t eqn:?
           end; simpl in *; reflexivity.
Qed.

Lemma within_clamp (cs : Constraints) (p : Point) :
  within cs (Pt (clampZ (X (Min cs)) (X (Max cs)) (X p))
                (clampZ (Y (Min cs)) (Y (Max cs)) (Y p)))
  <-> X (Min cs) <= X (Max cs) /\ Y (Min cs) <= Y (Max cs).
Proof.
  unfold within, clampZ. cbn [X Y].
  destruct (Z.ltb_spec (X p) (X (Min cs)));
    destruct (Z.ltb_spec (X (Max cs)) (X p));
    destruct (Z.ltb_spec (Y p) (Y (Min cs)));
    destruct (Z.ltb_spec (Y (Max cs)) (Y p)); lia.
Qed.

Section LayoutSizes.

Variable Action : Type.
Variable IconT : Type.
Variable InsetLayout : Inset -> Context -> Widget -> list Op * Dimensions.
Variable aLabelLayout : Btn.ButtonFull Action IconT -> Context -> list Op * Dimensions.
Variable IconLayout : IconT -> Colour -> Context -> list Op * Dimensions.
Variable Px : Context -> Value -> Z.
Variable LabelInset : Theme -> Inset.
Variable IconInset : Theme -> Inset.
Variable TextSize : Theme -> Value.
Variable StackLayout : Context -> list StackChild -> list Op * Dimensions.
Variable FlexLayout : layout.Flex -> Context -> list layout.FlexChild -> list Op * Dimensions.
Variable LayoutClickable : Btn.ButtonFull Action IconT -> Widget.
Variable HandleClicks : Btn.ButtonFull Action IconT -> Widget.
Variable HandleKeys : Btn.ButtonFull Action IconT -> Widget.
Variable Pxr : Context -> Value -> Q.
Variable GlobalDisable : bool.


End LayoutSizes.

(* ------------------------------------------------------------------ *)
(** ** The node tree and C2 *)

Lemma int_id (z : Z) : - 2 ^ 63 <= z < 2 ^ 63 -> int z = z.
Proof.
  intro H. unfold int.
  rewrite Z.mod_small; lia.
Qed.

Lemma derefChildren_app (l1 l2 : list node) (w1 w2 : list Widget) :
  derefChildren l1 = Some w1 -> derefChildren l2 = Some w2 ->
  derefChildren (l1 ++ l2) = Some (w1 ++ w2).
Proof.
  revert w1. induction l1 as [|n l1 IH]; intros w1 H1 H2; simpl in *.
  - injection H1 as <-. exact H2.
  - destruct (w n) as [wd|]; [| discriminate].
    destruct (derefChildren l1) as [l|]; [| discriminate].
    injection H1 as <-. now rewrite (IH l eq_refl H2).
Qed.

(** Adding the widgets one by one yields children that point to exactly
    these widgets, in order. *)
Lemma addChildren_deref (ws : list Widget) (n : node) (w0 : list Widget) :
  derefChildren (children n) = Some w0 ->
  derefChildren (children (addChildren n ws)) = Some (w0 ++ ws)
  /\ nodeType (addChildren n ws) = nodeType n.
Proof.
  revert n w0. induction ws as [|wd ws IH]; intros n w0 H; simpl.
  - rewrite app_nil_r. auto.
  - destruct (IH (addChild n wd) (w0 ++ [wd])) as [E T].
    + simpl. apply derefChildren_app; [exact H | reflexivity].
    + unfold addChildren in *. rewrite E, T, <- app_assoc. simpl. auto.
Qed.

Lemma drawFlex_children_built (ws : list Widget) :
  drawFlex_children (addChildren flexRoot ws) = Some (map layout.Rigid ws).
Proof.
  unfold drawFlex_children.
  destruct (addChildren_deref ws flexRoot [] eq_refl) as [E _].
  rewrite E. reflexivity.
Qed.

(** When every child honours its maximum, the rigid children share at
    most the remaining length. *)
Lemma rigidPass_sum (gtx : Context) (cmin cmax : Z) (ws : list Widget) :
  Forall honoursMax ws ->
  forall remaining, 0 <= remaining < 2 ^ 63 ->
    0 <= sumZ (layout.mainLengths layout.Horizontal
                 (layout.rigidPass layout.Horizontal gtx cmin cmax remaining
                    (map layout.Rigid ws)))
      <= remaining.
Proof.
  induction 1 as [|wd ws Hw _ IH]; intros remaining Hr; simpl.
  - lia.
  - set (sz := X (Size (snd (wd _)))).
    assert (Hs : 0 <= sz <= remaining).
    { subst sz. match goal with |- context [wd ?g] => apply (Hw g) end. simpl. lia. }
    rewrite (int_id (remaining - sz)) by lia.
    destruct (Z.ltb_spec (remaining - sz) 0); [lia|].
    specialize (IH (remaining - sz)). lia.
Qed.

(** C2, as stated, fails: a flex with the single child [cappedWidget 10]
    and the available length 100 gives that child the length 10. *)
Lemma C2_flex_sum_below_available :
  drawFlex_children (addChildren flexRoot [cappedWidget 10])
    = Some [layout.Rigid (cappedWidget 10)]
  /\ layout.mainLengths layout.Horizontal
       (layout.rigidDims theFlex (contextAt 0 (Pt 0 0) (Pt 100 50))
          [layout.Rigid (cappedWidget 10)]) = [10]
  /\ sumZ (layout.mainLengths layout.Horizontal
             (layout.rigidDims theFlex (contextAt 0 (Pt 0 0) (Pt 100 50))
                [layout.Rigid (cappedWidget 10)]))
     <> X (Max (Cs (contextAt 0 (Pt 0 0) (Pt 100 50)))).
Proof.
  split; [reflexivity|]. split; [reflexivity|].
  vm_compute. discriminate.
Qed.

(** C2, amended.  [MakeFlex] and [drawFlex] hand every child to the flex
    as a rigid child, in order, without any size policy, and lay them out
    horizontally with the default spacing; each child chooses its length
    within [0; remaining].  When every child honours its maximum and the
    available length [L] is a non-negative [int], the lengths of the
    children sum to at least 0 and at most [L]. *)
Theorem C2_rigid_children_sum_at_most_available
        (FlexLayout : layout.Flex -> Context -> list layout.FlexChild
                      -> option (list Op * Dimensions))
        (ws : list Widget) (gtx : Context) :
  Forall honoursMax ws ->
  0 <= X (Max (Cs gtx)) < 2 ^ 63 ->
  drawFlex_children (addChildren flexRoot ws) = Some (map layout.Rigid ws)
  /\ MakeFlex FlexLayout ws gtx = FlexLayout theFlex gtx (map layout.Rigid ws)
  /\ length (layout.rigidDims theFlex gtx (map layout.Rigid ws)) = length ws
  /\ 0 <= sumZ (layout.mainLengths layout.Horizontal
                  (layout.rigidDims theFlex gtx (map layout.Rigid ws)))
       <= X (Max (Cs gtx)).
Proof.
  intros Hw HL.
  split; [apply drawFlex_children_built|]. split.
  { unfold MakeFlex, drawFlex.
    change (Node FlexNode None []) with flexRoot.
    rewrite drawFlex_children_built. reflexivity. }
  split.
  { unfold layout.rigidDims. simpl.
    generalize (X (Max (Cs gtx))). clear.
    induction ws as [|wd ws IH]; intro r; simpl; [reflexivity|].
    now rewrite IH. }
  unfold layout.rigidDims. simpl. apply rigidPass_sum; assumption.
Qed.

Lemma honoursMax_capped (n : Z) : 0 <= n -> honoursMax (cappedWidget n).
Proof.
  intros Hn g Hg. simpl. lia.
Qed.

Lemma C2_rigid_children_sum_witness :
  0 <= sumZ (layout.mainLengths layout.Horizontal
               (layout.rigidDims theFlex (contextAt 0 (Pt 0 0) (Pt 100 50))
                  (map layout.Rigid [cappedWidget 10; cappedWidget 70; cappedWidget 70])))
    <= 100.
Proof.
  assert (Hw : Forall honoursMax [cappedWidget 10; cappedWidget 70; cappedWidget 70]).
  { repeat constructor; apply honoursMax_capped; lia. }
  assert (HL : 0 <= X (Max (Cs (contextAt 0 (Pt 0 0) (Pt 100 50)))) < 2 ^ 63)
    by (simpl; lia).
  exact (proj2 (proj2 (proj2
           (C2_rigid_children_sum_at_most_available
              (fun _ _ _ => None)
              [cappedWidget 10; cappedWidget 70; cappedWidget 70]
              (contextAt 0 (Pt 0 0) (Pt 100 50)) Hw HL)))).
Defined.

(* ------------------------------------------------------------------ *)
(** ** Containers without children *)

(** With no widgets, [MakeFlex] calls the flex engine with no children and
    [MakeList] calls the list engine with the length 0 and an element
    function that has no element to return; the dimensions are whatever
    the two engines answer. *)
Lemma empty_containers_delegate
      (FlexLayout : layout.Flex -> Context -> list layout.FlexChild
                    -> option (list Op * Dimensions))
      (ListLayout : layout.Axis -> Context -> nat
                    -> (Context -> nat -> option (list Op * Dimensions))
                    -> option (list Op * Dimensions))
      (dir : layout.Axis) (gtx : Context) :
  MakeFlex FlexLayout [] gtx = FlexLayout theFlex gtx []
  /\ exists elem,
       MakeList ListLayout dir [] gtx = ListLayout dir gtx 0%nat elem
       /\ forall g i, elem g i = None.
Proof.
  split; [reflexivity|].
  eexists. split; [reflexivity|].
  intros g i. simpl. destruct i; reflexivity.
Qed.

(* ================================================================== *)
(** * Further properties of the embedded code *)

(* ------------------------------------------------------------------ *)
(** ** drawInk: the fade-out *)

Lemma ink_haste_nonneg (gtx : Context) (c : Press) : (0 <= ink_haste gtx c)%Q.
Proof.
  unfold ink_haste. destruct (Cancelled c); [| discriminate].
  cbv zeta.
  match goal with |- context [Qgtb ?h 0] => destruct (Qgtb h 0) eqn:E end.
  - apply Qgtb_true in E. apply Qlt_le_weak, E.
  - discriminate.
Qed.

(** With an end time the haste does not depend on the context. *)
Lemma ink_haste_ended (g g' : Context) (c : Press) :
  time.IsZero (End c) = false -> ink_haste g c = ink_haste g' c.
Proof.
  intro HE. unfold ink_haste, ink_endt, ink_end. now rewrite HE.
Qed.

(** The multiplier as a function of the folded position. *)
Lemma ink_alpha_unfold (gtx : Context) (c : Press) :
  (ink_alpha gtx c
   == (42 # 5) * (ink_alphat gtx c * ink_alphat gtx c) * (1 - ink_alphat gtx c))%Q.
Proof. unfold ink_alpha, ink_t2. ring. Qed.

Lemma alpha_curve_mono (a' a : Q) :
  (0 <= a')%Q -> (a' <= a)%Q -> (a <= 1 # 2)%Q ->
  ((42 # 5) * (a' * a') * (1 - a') <= (42 # 5) * (a * a) * (1 - a))%Q.
Proof.
  intros H0 H1 H2.
  assert (E : ((42 # 5) * (a * a) * (1 - a) - (42 # 5) * (a' * a') * (1 - a')
               == (42 # 5) * ((a - a') * (a * (1 - a - a' * (1 # 2))
                                         + a' * (1 - a' - a * (1 # 2)))))%Q) by ring.
  assert (P1 : (0 <= a * (1 - a - a' * (1 # 2)))%Q) by (apply Qmult_le_0_compat; lra).
  assert (P2 : (0 <= a' * (1 - a' - a * (1 # 2)))%Q) by (apply Qmult_le_0_compat; lra).
  assert (P : (0 <= (a - a') * (a * (1 - a - a' * (1 # 2))
                                + a' * (1 - a' - a * (1 # 2))))%Q)
    by (apply Qmult_le_0_compat; lra).
  lra.
Qed.

(** When the fade-out position lies in [0; 0.5] the folded position is
    0.5 minus it. *)
Lemma ink_alphat_fold (gtx : Context) (c : Press) :
  (0 <= ink_half2 gtx c)%Q -> (ink_half2 gtx c <= 1 # 2)%Q ->
  (ink_alphat gtx c == (1 # 2) - ink_half2 gtx c)%Q.
Proof.
  intros H0 H1. unfold ink_alphat.
  assert (A : (ink_alphat0 gtx c == (1 # 2) + ink_half2 gtx c)%Q).
  { unfold ink_alphat0. rewrite ink_half1_half. lra. }
  destruct (Qgtb (ink_alphat0 gtx c) 0.5) eqn:E.
  - rewrite A. lra.
  - apply Qgtb_false in E. rewrite A in *. lra.
Qed.

(** The fade-out position at and after the end of the press. *)
Lemma ink_half2_nonneg (gtx : Context) (c : Press) :
  ink_end gtx c <= Now gtx -> (0 <= ink_half2 gtx c)%Q.
Proof.
  intro H. unfold ink_half2.
  assert (S0 : (0 <= time.Seconds (time.Sub (Now gtx) (ink_end gtx c)))%Q).
  { rewrite <- Seconds_0. apply Seconds_le.
    rewrite <- (Sub_self (ink_end gtx c)). apply Sub_mono, H. }
  assert (Hh := ink_haste_nonneg gtx c).
  set (s := time.Seconds (time.Sub (Now gtx) (ink_end gtx c))) in *.
  assert (D : (s / 0.9 == s * (10 # 9))%Q) by field.
  rewrite D. lra.
Qed.

Lemma opacity_range_at (gtx : Context) (c : Press) :
  (0 <= ink_half2 gtx c)%Q ->
  (0 <= opacity gtx c <= 1.05)%Q
  /\ (ink_faded gtx c = false -> (0 <= ink_alphat gtx c <= 1 # 2)%Q).
Proof.
  intro H0. unfold opacity.
  destruct (ink_faded gtx c) eqn:F.
  - split; [split; discriminate | discriminate].
  - unfold ink_faded in F. apply Qgtb_false in F.
    assert (F' : (ink_half2 gtx c <= 1 # 2)%Q) by lra.
    assert (A := ink_alphat_fold gtx c H0 F').
    assert (R : (0 <= ink_alphat gtx c <= 1 # 2)%Q) by (rewrite A; lra).
    split; [| intros _; exact R].
    rewrite ink_alpha_unfold. split.
    + assert (M := alpha_curve_mono 0 (ink_alphat gtx c)).
      lra.
    + assert (M := alpha_curve_mono (ink_alphat gtx c) (1 # 2)).
      lra.
Qed.

(** From the end of a press on, a call that still paints comes after
    calls that painted, and its multiplier is not negative and not above
    theirs. *)
Lemma alpha_after_end (g g' : Context) (c : Press) :
  time.IsZero (End c) = false ->
  End c <= Now g ->
  Now g <= Now g' ->
  ink_faded g' c = false ->
  ink_faded g c = false
  /\ (0 <= ink_alpha g' c)%Q
  /\ (ink_alpha g' c <= ink_alpha g c)%Q.
Proof.
  intros HE H1 H2 F'.
  assert (E1 : ink_end g c = End c) by (unfold ink_end; now rewrite HE).
  assert (E2 : ink_end g' c = End c) by (unfold ink_end; now rewrite HE).
  assert (N1 : (0 <= ink_half2 g c)%Q) by (apply ink_half2_nonneg; rewrite E1; exact H1).
  assert (N2 : (0 <= ink_half2 g' c)%Q) by (apply ink_half2_nonneg; rewrite E2; lia).
  assert (M : (ink_half2 g c <= ink_half2 g' c)%Q).
  { unfold ink_half2. rewrite E1, E2, (ink_haste_ended g g' c HE).
    assert (S : (time.Seconds (time.Sub (Now g) (End c))
                 <= time.Seconds (time.Sub (Now g') (End c)))%Q)
      by (apply Seconds_le, Sub_mono, H2).
    set (s := time.Seconds (time.Sub (Now g) (End c))) in *.
    set (s' := time.Seconds (time.Sub (Now g') (End c))) in *.
    assert (D : (s / 0.9 == s * (10 # 9))%Q) by field.
    assert (D' : (s' / 0.9 == s' * (10 # 9))%Q) by field.
    rewrite D, D'. lra. }
  destruct (opacity_range_at g c N1) as [R1 A1].
  destruct (opacity_range_at g' c N2) as [R2 A2].
  unfold opacity in R1, R2. rewrite F' in R2.
  assert (F2 := F'). unfold ink_faded in F2. apply Qgtb_false in F2.
  assert (F : ink_faded g c = false).
  { unfold ink_faded. apply Qgtb_false. lra. }
  split; [exact F|]. split; [apply R2|].
  rewrite !ink_alpha_unfold.
  assert (B1 : (ink_half2 g c <= 1 # 2)%Q) by lra.
  assert (B2 : (ink_half2 g' c <= 1 # 2)%Q) by lra.
  assert (X1 := ink_alphat_fold g c N1 B1).
  assert (X2 := ink_alphat_fold g' c N2 B2).
  apply alpha_curve_mono.
  - apply (A2 F').
  - rewrite X1, X2. lra.
  - apply (A1 F).
Qed.

(** Below 256 the conversion to a byte is the integer part. *)
Lemma byte_of_float_small (x : Q) :
  (0 <= x)%Q -> (x < 256)%Q -> byte_of_float x = Qfloor x.
Proof.
  intros H0 H1. destruct x as [n d]. unfold byte_of_float. cbn [Qnum Qden Qfloor].
  assert (P : 0 <= n) by (unfold Qle in H0; simpl in H0; lia).
  assert (L : n < 256 * Z.pos d) by (unfold Qlt in H1; simpl in H1; lia).
  rewrite Z.quot_div_nonneg by lia.
  assert (B0 : 0 <= n / Z.pos d) by (apply Z.div_pos; lia).
  assert (B1 : n / Z.pos d < 256) by (apply Z.div_lt_upper_bound; lia).
  cbv zeta.
  destruct (Z.ltb_spec (n / Z.pos d) (- 2 ^ 31)); [lia|].
  destruct (Z.leb_spec (2 ^ 31) (n / Z.pos d)); [lia|].
  simpl. apply Z.mod_small. lia.
Qed.

(** The byte is not monotone while the multiplier is above 256/255: for
    the press released at 0.3 s it is 11 at the release, 5 after 10 ms and
    255 after 20 ms. *)
Lemma byte_wraps_after_release :
  ink_ba (sampleAt 300000000) press03 = 11
  /\ ink_ba (sampleAt 310000000) press03 = 5
  /\ ink_ba (sampleAt 320000000) press03 = 255.
Proof. vm_compute. repeat split. Qed.

(** X1.  For a press with an end time, from the end of the press on: the
    local [alpha] of [drawInk] (the multiplier before [byte(alpha*0xff)],
    taken as 0 once the call returns early) never increases as time passes;
    a call that returns early is followed by calls that return early; and
    from a call on whose [alpha*0xff] is below 256, the byte passed to
    [MulAlpha] never increases either.  (While [alpha*0xff] is 256 or more
    the byte wraps around and can rise as [alpha] falls, see
    [byte_wraps_after_release].) *)
Theorem fade_out_alpha_never_increases (g g' : Context) (c : Press) :
  time.IsZero (End c) = false ->
  End c <= Now g ->
  Now g <= Now g' ->
  (opacity g' c <= opacity g c)%Q
  /\ (ink_faded g c = true -> ink_faded g' c = true)
  /\ (ink_faded g' c = false -> (ink_alpha g c * 255 < 256)%Q ->
        ink_ba g' c <= ink_ba g c).
Proof.
  intros HE H1 H2.
  assert (K := alpha_after_end g g' c HE H1 H2).
  split; [| split].
  - unfold opacity. destruct (ink_faded g' c) eqn:F'.
    + assert (E1 : ink_end g c = End c) by (unfold ink_end; now rewrite HE).
      assert (N1 : (0 <= ink_half2 g c)%Q)
        by (apply ink_half2_nonneg; rewrite E1; exact H1).
      destruct (opacity_range_at g c N1) as [R1 _]. apply R1.
    + destruct (K eq_refl) as (F & _ & M). rewrite F. exact M.
  - intro F. destruct (ink_faded g' c) eqn:F'; [reflexivity|].
    destruct (K eq_refl) as (F0 & _). congruence.
  - intros F' HB. destruct (K F') as (F & P & M).
    unfold ink_ba.
    assert (P' : (0 <= ink_alpha g c)%Q) by lra.
    rewrite !byte_of_float_small by lra.
    apply Qfloor_resp_le. lra.
Qed.

Lemma fade_out_alpha_never_increases_witness :
  (opacity (sampleAt 700000000) press03 <= opacity (sampleAt 400000000) press03)%Q
  /\ ink_ba (sampleAt 700000000) press03 <= ink_ba (sampleAt 400000000) press03.
Proof.
  assert (H1 : End press03 <= Now (sampleAt 400000000)) by (simpl; lia).
  assert (H2 : Now (sampleAt 400000000) <= Now (sampleAt 700000000)) by (simpl; lia).
  assert (F : ink_faded (sampleAt 700000000) press03 = false) by (vm_compute; reflexivity).
  assert (B : (ink_alpha (sampleAt 400000000) press03 * 255 < 256)%Q)
    by (vm_compute; reflexivity).
  split.
  - exact (proj1 (fade_out_alpha_never_increases (sampleAt 400000000) (sampleAt 700000000) press03
                    eq_refl H1 H2)).
  - exact (proj2 (proj2 (fade_out_alpha_never_increases (sampleAt 400000000) (sampleAt 700000000)
                           press03 eq_refl H1 H2)) F B).
Defined.

(** X2.  When [now] is not before the end of the press (a press that has
    not ended counts as ending now), the opacity multiplier lies between 0
    and 1.05, and a painting call has its folded position in [0; 0.5]. *)
Theorem opacity_between_0_and_1_05 (gtx : Context) (c : Press) :
  ink_end gtx c <= Now gtx ->
  (0 <= opacity gtx c <= 1.05)%Q
  /\ (ink_faded gtx c = false -> (0 <= ink_alphat gtx c <= 1 # 2)%Q).
Proof.
  intro H. apply opacity_range_at, ink_half2_nonneg, H.
Qed.

Lemma opacity_between_0_and_1_05_witness :
  (0 <= opacity (sampleAt 400000000) press03 <= 1.05)%Q.
Proof.
  assert (H : ink_end (sampleAt 400000000) press03 <= Now (sampleAt 400000000))
    by (vm_compute; discriminate).
  exact (proj1 (opacity_between_0_and_1_05 (sampleAt 400000000) press03 H)).
Defined.

(** X3.  How long the ink stays after the end of a press: a call adds
    nothing exactly when more than 0.45 s have passed since the end, or,
    for a cancelled press, more than the smaller of 0.45 s and the time the
    press lasted. *)
Theorem ink_gone_after (gtx : Context) (c : Press) :
  (Cancelled c = false ->
     (drawInk gtx c = [] <->
      (0.45 < time.Seconds (time.Sub (Now gtx) (ink_end gtx c)))%Q))
  /\ (Cancelled c = true ->
        (drawInk gtx c = [] <->
         (Qmin (ink_endt gtx c) 0.45
          < time.Seconds (time.Sub (Now gtx) (ink_end gtx c)))%Q)).
Proof.
  assert (K : forall s : Q, (s / 0.9 == s * (10 # 9))%Q) by (intro; field).
  split; intro HC; rewrite drawInk_nil_iff; unfold ink_faded; rewrite Qgtb_true;
    unfold ink_half2, ink_haste; rewrite HC.
  - set (s := time.Seconds (time.Sub (Now gtx) (ink_end gtx c))).
    rewrite (K s). split; intro H; lra.
  - cbv zeta.
    set (s := time.Seconds (time.Sub (Now gtx) (ink_end gtx c))).
    set (e := ink_endt gtx c).
    rewrite (K s).
    destruct (Qgtb (0.5 - e / 0.9) 0) eqn:E.
    + apply Qgtb_true in E. rewrite (K e) in *.
      destruct (Qmin_cases e 0.45) as [[A B]|[A B]]; rewrite B; split; intro H; lra.
    + apply Qgtb_false in E. rewrite (K e) in *.
      destruct (Qmin_cases e 0.45) as [[A B]|[A B]]; rewrite B; split; intro H; lra.
Qed.

(** X4.  At the instant a press is cancelled ([now] equal to its end
    time) after lasting [endt >= 0]: the call paints, the folded position
    is the smaller of [endt/0.9] and 0.5, so a press cancelled at once is
    painted with opacity 0 and one cancelled after 0.45 s or more with the
    full 1.05. *)
Theorem ink_at_cancellation (gtx : Context) (c : Press) :
  Cancelled c = true ->
  time.IsZero (End c) = false ->
  Now gtx = End c ->
  (0 <= ink_endt gtx c)%Q ->
  ink_faded gtx c = false
  /\ (ink_alphat gtx c == Qmin (ink_endt gtx c / 0.9) (1 # 2))%Q
  /\ ((ink_endt gtx c == 0)%Q -> (opacity gtx c == 0)%Q)
  /\ ((0.45 <= ink_endt gtx c)%Q -> (opacity gtx c == 1.05)%Q).
Proof.
  intros HC HE HN Ht.
  assert (K : forall s : Q, (s / 0.9 == s * (10 # 9))%Q) by (intro; field).
  assert (H2 : (ink_half2 gtx c == ink_haste gtx c)%Q).
  { unfold ink_half2, ink_end. rewrite HE, HN, Sub_self, Seconds_0. field. }
  assert (Hh : (ink_haste gtx c == (1 # 2) - Qmin (ink_endt gtx c / 0.9) (1 # 2))%Q).
  { unfold ink_haste. rewrite HC. cbv zeta.
    set (e := ink_endt gtx c) in *.
    destruct (Qgtb (0.5 - e / 0.9) 0) eqn:E.
    - apply Qgtb_true in E.
      destruct (Qmin_cases (e / 0.9) (1 # 2)) as [[A B]|[A B]]; rewrite B; lra.
    - apply Qgtb_false in E.
      destruct (Qmin_cases (e / 0.9) (1 # 2)) as [[A B]|[A B]]; rewrite B; lra. }
  assert (M0 : (0 <= Qmin (ink_endt gtx c / 0.9) (1 # 2))%Q).
  { apply Q.min_glb; [rewrite K; lra | discriminate]. }
  assert (M1 : (Qmin (ink_endt gtx c / 0.9) (1 # 2) <= 1 # 2)%Q) by apply Q.le_min_r.
  assert (F : ink_faded gtx c = false).
  { unfold ink_faded. apply Qgtb_false. rewrite H2, Hh. lra. }
  assert (A : (ink_alphat gtx c == Qmin (ink_endt gtx c / 0.9) (1 # 2))%Q).
  { rewrite ink_alphat_fold; rewrite H2, Hh; lra. }
  split; [exact F|]. split; [exact A|].
  unfold opacity. rewrite F. split; intro H.
  - rewrite ink_alpha_unfold, A.
    assert (Z0 : (Qmin (ink_endt gtx c / 0.9) (1 # 2) == 0)%Q).
    { apply Qle_antisym; [| exact M0].
      apply Qle_trans with (ink_endt gtx c / 0.9)%Q; [apply Q.le_min_l |].
      rewrite K. lra. }
    rewrite Z0. reflexivity.
  - apply ink_alpha_of_half. rewrite A.
    transitivity (1 # 2)%Q; [| reflexivity].
    apply Q.min_r. rewrite K. lra.
Qed.

Lemma ink_at_cancellation_witness :
  (ink_alphat (sampleAt 300000000) (pressOf 0 300000000 true)
   == Qmin (ink_endt (sampleAt 300000000) (pressOf 0 300000000 true) / 0.9) (1 # 2))%Q.
Proof.
  assert (Ht : (0 <= ink_endt (sampleAt 300000000) (pressOf 0 300000000 true))%Q)
    by (vm_compute; discriminate).
  exact (proj1 (proj2 (ink_at_cancellation (sampleAt 300000000) (pressOf 0 300000000 true)
                         eq_refl eq_refl eq_refl Ht))).
Defined.

(** Truncation toward zero of a rational equal to 267.75. *)
Lemma byte_of_float_267_75 (x : Q) : (x == 267.75)%Q -> byte_of_float x = 11.
Proof.
  intro H. unfold byte_of_float.
  assert (P : 0 <= Qnum x).
  { assert (L : (0 <= x)%Q) by (rewrite H; discriminate).
    unfold Qle in L. simpl in L. lia. }
  rewrite Z.quot_div_nonneg by (try exact P; reflexivity).
  assert (Fl : Qnum x / Z.pos (Qden x) = Qfloor x) by (destruct x; reflexivity).
  rewrite Fl, (Qfloor_comp _ _ H). reflexivity.
Qed.

(** X5.  While a press is held (no end time, not cancelled) the byte
    handed to [MulAlpha] is 11 at every instant and for every size: the
    multiplier 1.05 times 255 is 267.75, which the conversion to a byte
    (truncation, then the low eight bits) turns into 267 - 256. *)
Theorem held_press_alpha_byte_wraps (gtx : Context) (c : Press) :
  time.IsZero (End c) = true ->
  Cancelled c = false ->
  ink_ba gtx c = 11
  /\ In (ColorOp (MulAlpha (NRGBA 128 128 128 255) 11)) (drawInk gtx c).
Proof.
  intros HE HC.
  assert (H2 : (ink_half2 gtx c == 0)%Q).
  { rewrite (ink_half2_open gtx c HE), (ink_haste_not_cancelled gtx c HC). reflexivity. }
  assert (HF : ink_faded gtx c = false).
  { unfold ink_faded. apply Qgtb_false. rewrite H2. discriminate. }
  assert (HA : (ink_alpha gtx c == 1.05)%Q).
  { apply ink_alpha_of_half, ink_alphat_of_half. unfold ink_alphat0.
    rewrite ink_half1_half, H2. reflexivity. }
  assert (B : ink_ba gtx c = 11).
  { unfold ink_ba. apply byte_of_float_267_75. rewrite HA. reflexivity. }
  split; [exact B|].
  rewrite (drawInk_painted _ _ HF), B. simpl. tauto.
Qed.

Lemma held_press_alpha_byte_wraps_witness :
  ink_ba (sampleAt 5000000000) (pressOf 1000000000 0 false) = 11.
Proof.
  exact (proj1 (held_press_alpha_byte_wraps
                  (sampleAt 5000000000) (pressOf 1000000000 0 false) eq_refl eq_refl)).
Defined.

(* ------------------------------------------------------------------ *)
(** ** LayoutBackground: what is drawn *)

Lemma countOps_app (p : Op -> bool) (l1 l2 : list Op) :
  countOps p (l1 ++ l2) = (countOps p l1 + countOps p l2)%nat.
Proof. unfold countOps. now rewrite filter_app, length_app. Qed.

Lemma countOps_drawInk (gtx : Context) (c : Press) :
  let n := if ink_faded gtx c then 0%nat else 1%nat in
  countOps isInvalidate (drawInk gtx c) = n
  /\ countOps isSave (drawInk gtx c) = n
  /\ countOps isLoad (drawInk gtx c) = n
  /\ countOps isPaint (drawInk gtx c) = n.
Proof.
  cbv zeta. destruct (ink_faded gtx c) eqn:F.
  - apply drawInk_nil_iff in F. rewrite F. repeat split.
  - rewrite (drawInk_painted _ _ F). repeat split.
Qed.

Lemma countOps_inkLoop (gtx : Context) (h : list Press) :
  let n := List.length (unfaded gtx h) in
  countOps isInvalidate (flat_map (drawInk gtx) h) = n
  /\ countOps isSave (flat_map (drawInk gtx) h) = n
  /\ countOps isLoad (flat_map (drawInk gtx) h) = n
  /\ countOps isPaint (flat_map (drawInk gtx) h) = n.
Proof.
  cbv zeta. induction h as [|c h (I1 & I2 & I3 & I4)]; simpl.
  - repeat split.
  - destruct (countOps_drawInk gtx c) as (D1 & D2 & D3 & D4).
    rewrite !countOps_app, I1, I2, I3, I4, D1, D2, D3, D4.
    unfold unfaded in *. simpl.
    destruct (ink_faded gtx c); simpl; repeat split.
Qed.

(** X6.  The loop over the press history, the last thing
    [LayoutBackground] does, adds one redraw request, one saved state, one
    paint and one restored state for every record of the history that is
    not yet faded, and nothing for the others; so the loop requests no
    redraw exactly when every record is faded (in particular with an empty
    history).  What is drawn before the loop is not counted. *)
Theorem background_redraws_per_unfaded_record
        (Pxr : Context -> Value -> Q) (b : ButtonDef) (gtx : Context) :
  let ops := inkLoop b gtx in
  let n := List.length (unfaded gtx (History b)) in
  fst (LayoutBackground Pxr b gtx) = paintBackground Pxr b gtx ++ ops
  /\ countOps isInvalidate ops = n
  /\ countOps isSave ops = n
  /\ countOps isLoad ops = n
  /\ countOps isPaint ops = n
  /\ (existsb isInvalidate ops = false <-> unfaded gtx (History b) = []).
Proof.
  cbv zeta. unfold inkLoop.
  destruct (countOps_inkLoop gtx (History b)) as (I1 & I2 & I3 & I4).
  split; [reflexivity|].
  repeat (split; [assumption|]).
  set (ops := flat_map (drawInk gtx) (History b)) in *.
  unfold countOps in I1.
  split; intro H.
  - destruct (unfaded gtx (History b)) as [|x l] eqn:U; [reflexivity|].
    exfalso. simpl in I1.
    destruct (filter isInvalidate ops) as [|o f] eqn:E; [discriminate|].
    assert (I : In o (filter isInvalidate ops)) by (rewrite E; left; reflexivity).
    apply filter_In in I. destruct I as [I1' I2'].
    assert (X : existsb isInvalidate ops = true)
      by (apply existsb_exists; exists o; split; assumption).
    congruence.
  - rewrite H in I1. simpl in I1.
    destruct (existsb isInvalidate ops) eqn:X; [| reflexivity].
    apply existsb_exists in X. destruct X as (o & O1 & O2).
    assert (I : In o (filter isInvalidate ops)) by (apply filter_In; split; assumption).
    destruct (filter isInvalidate ops); [destruct I | discriminate].
Qed.

(** X7.  A painting call of [drawInk] clips to the circle of radius [rr]
    around the press position: the offset is the position moved back by
    the radius on both axes and the clip rectangle is 2 rr wide and high
    with corner radius rr. *)
Theorem ink_clip_centred_on_press (gtx : Context) (c : Press) (p m : FPoint) (r : Q) :
  In (OffsetOp p) (drawInk gtx c) ->
  In (UniformRRectOp m r) (drawInk gtx c) ->
  r = ink_rr gtx c
  /\ (FX p + r == FX (Position c))%Q /\ (FY p + r == FY (Position c))%Q
  /\ (FX m == 2 * r)%Q /\ (FY m == 2 * r)%Q.
Proof.
  intros HO HR.
  destruct (ink_faded gtx c) eqn:F.
  - apply drawInk_nil_iff in F. rewrite F in HO. destruct HO.
  - rewrite (drawInk_painted _ _ F) in HO, HR. simpl in HO, HR.
    repeat match goal with
           | H : _ \/ _ |- _ => destruct H as [H|H]; try discriminate H
           | H : False |- _ => destruct H
           end.
    injection HO as <-. injection HR as <- <-. simpl.
    repeat split; try reflexivity; ring.
Qed.

Lemma ink_clip_centred_on_press_witness :
  (FX (FPt (0 + - ink_rr (sampleAt 200000000) press03)
           (0 + - ink_rr (sampleAt 200000000) press03))
   + ink_rr (sampleAt 200000000) press03 == FX (Position press03))%Q.
Proof.
  assert (F : ink_faded (sampleAt 200000000) press03 = false) by (vm_compute; reflexivity).
  assert (HO : In (OffsetOp (FPt (FX (Position press03) + - ink_rr (sampleAt 200000000) press03)
                                 (FY (Position press03) + - ink_rr (sampleAt 200000000) press03)))
                  (drawInk (sampleAt 200000000) press03)).
  { rewrite (drawInk_painted _ _ F). simpl. tauto. }
  assert (HR : In (UniformRRectOp (FPt (2 * ink_rr (sampleAt 200000000) press03)
                                       (2 * ink_rr (sampleAt 200000000) press03))
                                  (ink_rr (sampleAt 200000000) press03))
                  (drawInk (sampleAt 200000000) press03)).
  { rewrite (drawInk_painted _ _ F). simpl. tauto. }
  exact (proj1 (proj2 (ink_clip_centred_on_press _ _ _ _ _ HO HR))).
Defined.

(** X8.  What [LayoutBackground] does before the ink loop, in order: a
    layout of the shadow, of the radius and the theme's elevation, exactly
    when the button is focused or hovered, with a live or a nil queue alike; its one own clip, of the outline with
    the corner radius; one call of [paint.FillShape] for the rounded
    outline; and, for the outlined style only, [PaintBorder], which is one
    more call of [paint.FillShape], for the stroke of the outline with the
    theme's corner radius and border thickness, in the primary colour or,
    with a nil queue, the disabled primary colour.  The returned size is the
    minimum of the constraints. *)
Theorem background_shape (Pxr : Context -> Value -> Q) (b : ButtonDef) (gtx : Context) :
  let rr := if ButtonStyle_eqb (Style b) Round
            then (inject_Z (Y (Min (Cs gtx))) / 2.0)%Q
            else Pxr gtx (CornerRadius (th b)) in
  let outline := FPt (inject_Z (X (Min (Cs gtx)))) (inject_Z (Y (Min (Cs gtx)))) in
  (exists col,
     paintBackground Pxr b gtx
     = (if Focused b || Hovered b then [ShadowOp rr (Elevation (th b))] else [])
       ++ [UniformRRectOp outline rr; FillShapeOp col (RRectShape outline rr rr rr rr)]
       ++ (if ButtonStyle_eqb (Style b) Outlined
           then [FillShapeOp (if Queue gtx then ThPrimary else DisabledC ThPrimary)
                   (StrokeShape outline (Pxr gtx (CornerRadius (th b)))
                                (Pxr gtx (BorderThickness (th b))))]
           else []))
  /\ Size (snd (LayoutBackground Pxr b gtx)) = Min (Cs gtx).
Proof.
  cbv zeta. split; [| reflexivity].
  unfold paintBackground, backgroundFill, PaintBorder.
  destruct (Style b), (Queue gtx), (Hovered b || Focused b);
    cbn [negb ButtonStyle_eqb app]; eexists; reflexivity.
Qed.

(** X9.  With a nil queue the calls chosen by the [switch] of
    [LayoutBackground] (the fill and, for the outlined style, the border)
    are the same whether the button is hovered, focused or neither; for the
    text style they are those of the idle enabled button. *)
Theorem disabled_fill_ignores_hover (Pxr : Context -> Value -> Q)
        (b : ButtonDef) (gtx : Context) (outline : FPoint) (rr : Q) (h f : bool) :
  Queue gtx = false ->
  backgroundFill Pxr (set_hover_focus b h f) gtx outline rr
  = backgroundFill Pxr b gtx outline rr
  /\ (Style b = Text ->
        backgroundFill Pxr b gtx outline rr
        = backgroundFill Pxr (set_hover_focus b false false)
            {| Cs := Cs gtx; Now := Now gtx; Queue := true |} outline rr).
Proof.
  intro HQ. unfold backgroundFill, PaintBorder. simpl. rewrite HQ. simpl.
  split; [destruct (Style b); reflexivity|].
  intro HS. rewrite HS. reflexivity.
Qed.

Lemma disabled_fill_ignores_hover_witness :
  backgroundFill (fun _ v => V v)
    (set_hover_focus (newButtonDef {| history := []; hovered := false; focused := false;
                                      disabled := true |}
                                   {| CornerRadius := zeroValue; BorderThickness := zeroValue;
                                      Elevation := zeroValue |} Outlined) true false)
    (Disabled_ctx (sampleAt 0)) (FPt 80 30) 4
  = backgroundFill (fun _ v => V v)
      (newButtonDef {| history := []; hovered := false; focused := false; disabled := true |}
                    {| CornerRadius := zeroValue; BorderThickness := zeroValue;
                       Elevation := zeroValue |} Outlined)
      (Disabled_ctx (sampleAt 0)) (FPt 80 30) 4.
Proof.
  exact (proj1 (disabled_fill_ignores_hover (fun _ v => V v)
                  (newButtonDef {| history := []; hovered := false; focused := false;
                                   disabled := true |}
                                {| CornerRadius := zeroValue; BorderThickness := zeroValue;
                                   Elevation := zeroValue |} Outlined)
                  (Disabled_ctx (sampleAt 0)) (FPt 80 30) 4 true false eq_refl)).
Defined.

(* ------------------------------------------------------------------ *)
(** ** The head of Layout *)

(** X10.  The disabling step recomputes the flag on every pass: after it
    [disabled] holds exactly when the disabler points to [true] or the
    global flag is set, whatever it held before; the queue is live exactly
    when it was live and the flag is clear; and running the step again on
    its own result changes nothing. *)
Theorem Layout_disable_recomputes (G : bool) (b : ButtonDef) (gtx : Context) (d : bool) :
  let flag := (match disabler b with Some v => v | None => false end) || G in
  disabled (clickable (fst (Layout_disable G b gtx))) = flag
  /\ Queue (snd (Layout_disable G b gtx)) = Queue gtx && negb flag
  /\ Layout_disable G (set_disabled b d) gtx = Layout_disable G b gtx
  /\ Layout_disable G (fst (Layout_disable G b gtx)) (snd (Layout_disable G b gtx))
     = Layout_disable G b gtx.
Proof.
  cbv zeta.
  destruct b as [ck t [[|]|] wv st], G, gtx as [cs nw [|]];
    cbv [Layout_disable set_disabled Disabled_ctx disabler clickable th Width Style
         history hovered focused disabled Cs Now Queue fst snd orb andb negb];
    repeat split.
Qed.

(** X11.  The minimum width handed to the content of the button.  With a
    [Width] of at most 1 it is the fraction of the maximum width, capped by
    the maximum, and the incoming minimum width plays no part; with a
    larger [Width] it is the larger of the incoming minimum and the width,
    capped by the maximum. *)
Theorem Layout_min_width (Px : Context -> Value -> Z) (b : ButtonDef) (gtx : Context) :
  ((V (Width b) <= 1)%Q ->
     X (Layout_min Px b gtx)
     = Z.min (Px gtx (Scale (Width b) (inject_Z (X (Max (Cs gtx)))))) (X (Max (Cs gtx))))
  /\ ((1 < V (Width b))%Q ->
        X (Layout_min Px b gtx)
        = Z.min (Z.max (X (Min (Cs gtx))) (Px gtx (Width b))) (X (Max (Cs gtx)))).
Proof.
  unfold Layout_min. cbv zeta. rewrite !Z.gtb_ltb.
  split; intro H.
  - assert (E : Qleb (V (Width b)) 1.0 = true).
    { apply Qleb_true. assert (O : (1.0 == 1)%Q) by reflexivity. rewrite O. exact H. }
    rewrite E. cbn [X Y].
    match goal with
    | |- context [if (?a <? ?m) then _ else _] => destruct (Z.ltb_spec a m)
    end; cbn [X Y]; lia.
  - assert (E : Qleb (V (Width b)) 1.0 = false).
    { destruct (Qleb (V (Width b)) 1.0) eqn:E'; [| reflexivity].
      apply Qleb_true in E'. assert (O : (1.0 == 1)%Q) by reflexivity.
      rewrite O in E'. exfalso. apply (Qlt_not_le _ _ H E'). }
    rewrite E.
    destruct (Z.ltb_spec (X (Min (Cs gtx))) (Px gtx (Width b))); cbn [X Y];
      match goal with
      | |- context [if (?a <? ?m) then _ else _] => destruct (Z.ltb_spec a m)
      end; cbn [X Y]; lia.
Qed.

(* ------------------------------------------------------------------ *)
(** ** Button options and construction *)

Section ButtonFacts.

Variable Action : Type.
Variable IconT : Type.
Variable SetupTabs : Clickable -> Clickable.

Lemma apply_snoc (b : Btn.ButtonFull Action IconT) (os : list (Btn.BtnOption Action IconT)) (o : Btn.BtnOption Action IconT) :
  Btn.apply b (os ++ [o]) = o (Btn.apply b os).
Proof. unfold Btn.apply. now rewrite fold_left_app. Qed.

(** The provided options leave the label, the style, the theme, the
    clickable, the font, the tooltip and the padding alone. *)
Lemma provided_frame (o : Btn.BtnOption Action IconT) (b : Btn.ButtonFull Action IconT) :
  Btn.provided o ->
  Btn.BtnText (o b) = Btn.BtnText b
  /\ Style (Btn.base (o b)) = Style (Btn.base b)
  /\ th (Btn.base (o b)) = th (Btn.base b)
  /\ clickable (Btn.base (o b)) = clickable (Btn.base b)
  /\ Btn.FontWeight (o b) = Btn.FontWeight b
  /\ Btn.Tooltip (o b) = Btn.Tooltip b.
Proof. destruct 1; repeat split. Qed.

Lemma apply_provided_frame (os : list (Btn.BtnOption Action IconT)) (b : Btn.ButtonFull Action IconT) :
  Forall Btn.provided os ->
  Btn.BtnText (Btn.apply b os) = Btn.BtnText b
  /\ Style (Btn.base (Btn.apply b os)) = Style (Btn.base b)
  /\ th (Btn.base (Btn.apply b os)) = th (Btn.base b)
  /\ clickable (Btn.base (Btn.apply b os)) = clickable (Btn.base b)
  /\ Btn.FontWeight (Btn.apply b os) = Btn.FontWeight b
  /\ Btn.Tooltip (Btn.apply b os) = Btn.Tooltip b.
Proof.
  intro H. revert b. induction H as [|o os Ho _ IH]; intro b.
  - repeat split.
  - change (Btn.apply b (o :: os)) with (Btn.apply (o b) os).
    destruct (IH (o b)) as (A1 & A2 & A3 & A4 & A5 & A6).
    destruct (provided_frame o b Ho) as (B1 & B2 & B3 & B4 & B5 & B6).
    repeat split; congruence.
Qed.

(** X12.  What [Button] fixes.  Whatever the options do, the padding is
    5 dp on every side, and the tooltip is [PlatformTooltip] of the final
    help text whenever that text is not empty.  With the options this file
    provides, the label, the style, the theme, the clickable and the medium
    font weight are those [Button] set, and there is a tooltip exactly when
    the final help text is not empty. *)
Theorem Button_fixes_fields (style : ButtonStyle) (t : Theme) (label : string)
        (options : list (Btn.BtnOption Action IconT)) :
  let b := Btn.Button SetupTabs style t label options in
  Btn.btnPadding b = {| Top := unitDp 5; Bottom := unitDp 5;
                        Left := unitDp 5; Right := unitDp 5 |}
  /\ (Btn.helptext b <> ""%string -> Btn.Tooltip b = Some (Btn.helptext b))
  /\ (Forall Btn.provided options ->
        Btn.BtnText b = label
        /\ Style (Btn.base b) = style
        /\ th (Btn.base b) = t
        /\ clickable (Btn.base b)
           = SetupTabs {| history := []; hovered := false; focused := false;
                          disabled := false |}
        /\ Btn.FontWeight b = WeightMedium
        /\ Btn.Tooltip b
           = (if String.eqb (Btn.helptext b) "" then None else Some (Btn.helptext b))).
Proof.
  cbv zeta. unfold Btn.Button.
  set (b0 := Btn.Build_ButtonFull Action IconT (newButtonDef _ _ _) _ _ _ _ _ _ _).
  destruct (String.eqb (Btn.helptext (Btn.apply b0 options)) "") eqn:E; cbn.
  - split; [reflexivity|]. split.
    + intro H. apply String.eqb_eq in E. contradiction.
    + intro HP. rewrite E.
      destruct (apply_provided_frame options b0 HP) as (A1 & A2 & A3 & A4 & A5 & A6).
      repeat split; assumption.
  - split; [reflexivity|]. split; [reflexivity|].
    intro HP. rewrite E.
    destruct (apply_provided_frame options b0 HP) as (A1 & A2 & A3 & A4 & A5 & A6).
    repeat split; assumption.
Qed.

(** X13.  The last option decides.  After any options, a final [Hint s]
    makes the help text [s], so a final [Hint ""] after provided options
    leaves the button without tooltip; a final [Disable v] makes the
    disabler [v]; a final [Width w] makes the width [w] dp; a final
    [BtnIcon i] makes the icon [i]; a final [Handler f] installs a handler
    that runs [f] whatever flag it is called with.  Without options there
    is no help text, tooltip, disabler, icon or handler and the width is
    the zero value. *)
Theorem Button_last_option_decides (style : ButtonStyle) (t : Theme) (label : string)
        (options : list (Btn.BtnOption Action IconT)) :
  (forall s, Btn.helptext (Btn.Button SetupTabs style t label (options ++ [Btn.Hint s])) = s)
  /\ (Forall Btn.provided options ->
        Btn.Tooltip (Btn.Button SetupTabs style t label (options ++ [Btn.Hint ""%string]))
        = None)
  /\ (forall v, disabler (Btn.base (Btn.Button SetupTabs style t label
                                      (options ++ [Btn.Disable v]))) = v)
  /\ (forall w, Width (Btn.base (Btn.Button SetupTabs style t label
                                   (options ++ [Btn.Width w]))) = unitDp w)
  /\ (forall i, Btn.Icon (Btn.Button SetupTabs style t label (options ++ [Btn.BtnIcon i])) = i)
  /\ (forall f, exists h,
        Btn.handler (Btn.Button SetupTabs style t label (options ++ [Btn.Handler f])) = Some h
        /\ forall flag, h flag = f)
  /\ (let b := Btn.Button SetupTabs style t label (@nil (Btn.BtnOption Action IconT)) in
      Btn.helptext b = ""%string /\ Btn.Tooltip b = None /\ disabler (Btn.base b) = None
      /\ Btn.Icon b = None /\ Btn.handler b = None /\ Width (Btn.base b) = zeroValue).
Proof.
  unfold Btn.Button.
  set (b0 := Btn.Build_ButtonFull Action IconT (newButtonDef _ _ _) _ _ _ _ _ _ _).
  split.
  { intro s. rewrite apply_snoc. destruct (String.eqb _ _); reflexivity. }
  split.
  { intro HP. rewrite apply_snoc. cbn.
    destruct (apply_provided_frame options b0 HP) as (_ & _ & _ & _ & _ & A6). exact A6. }
  split.
  { intro v. rewrite apply_snoc. destruct (String.eqb _ _); reflexivity. }
  split.
  { intro w. rewrite apply_snoc. destruct (String.eqb _ _); reflexivity. }
  split.
  { intro i. rewrite apply_snoc. destruct (String.eqb _ _); reflexivity. }
  split.
  { intro f. rewrite apply_snoc. exists (fun _ => f).
    destruct (String.eqb _ _); split; reflexivity. }
  cbn. repeat split.
Qed.

End ButtonFacts.

(** X14.  The colour of the label.  The round style sets none; the
    contained style paints the label in the on-primary colour, with a nil
    queue too; the text and outlined styles use the dimmed primary colour
    with a nil queue, and with a live queue the primary colour, which only
    the hovered outlined button replaces by the hovered primary colour (the
    text style does not react to hovering). *)
Theorem label_colour_by_style (b : ButtonDef) (gtx : Context) :
  (Style b = Round -> Btn.labelColor b gtx = [])
  /\ (Style b = Contained -> Btn.labelColor b gtx = [ColorOp ThOnPrimary])
  /\ (Style b = Text \/ Style b = Outlined ->
        Queue gtx = false -> Btn.labelColor b gtx = [ColorOp (DisabledC ThPrimary)])
  /\ (Style b = Text -> Queue gtx = true -> Btn.labelColor b gtx = [ColorOp ThPrimary])
  /\ (Style b = Outlined -> Queue gtx = true ->
        Btn.labelColor b gtx
        = [ColorOp (if Hovered b then HoveredC ThPrimary else ThPrimary)]).
Proof.
  unfold Btn.labelColor.
  repeat match goal with |- _ /\ _ => split end.
  - intros ->. reflexivity.
  - intros ->. reflexivity.
  - intros [-> | ->] ->; reflexivity.
  - intros -> ->. reflexivity.
  - intros -> ->. simpl. destruct (Hovered b); reflexivity.
Qed.

(* ------------------------------------------------------------------ *)
(** ** The node tree *)

Lemma children_addChildren (ws : list Widget) (n : node) :
  children (addChildren n ws)
  = children n ++ map (fun wd => Node ListNode (Some wd) []) ws
  /\ nodeType (addChildren n ws) = nodeType n
  /\ w (addChildren n ws) = w n.
Proof.
  revert n. induction ws as [|wd ws IH]; intro n; simpl.
  - rewrite app_nil_r. auto.
  - destruct (IH (addChild n wd)) as (E & T & W).
    unfold addChildren in *. rewrite E, T, W. simpl.
    rewrite <- app_assoc. auto.
Qed.

Lemma derefChildren_None (cs : list node) :
  derefChildren cs = None <-> exists c, In c cs /\ w c = None.
Proof.
  induction cs as [|n cs IH]; simpl.
  - split; [discriminate | intros (c & [] & _)].
  - destruct (w n) as [wd|] eqn:E.
    + destruct (derefChildren cs) as [l|].
      * split; [discriminate|].
        intros (c & [<- | Hc] & Hw); [congruence|].
        assert (N : @None (list Widget) = None) by reflexivity.
        assert (X : exists c, In c cs /\ w c = None) by (exists c; auto).
        apply IH in X. discriminate.
      * split; [| reflexivity].
        intros _. destruct (proj1 IH eq_refl) as (c & Hc & Hw).
        exists c. auto.
    + split; [| reflexivity].
      intros _. exists n. auto.
Qed.

(** X15.  [addChild] in a loop appends, in order, one leaf per widget:
    each new child has node type 0 ([ListNode], under a flex root too), the
    pointer to its widget and no children; the children already there, the
    type of the root and its widget pointer stay. *)
Theorem addChildren_appends_leaves (ws : list Widget) (n : node) :
  children (addChildren n ws)
  = children n ++ map (fun wd => Node ListNode (Some wd) []) ws
  /\ List.length (children (addChildren n ws))
     = (List.length (children n) + List.length ws)%nat
  /\ nodeType (addChildren n ws) = nodeType n
  /\ w (addChildren n ws) = w n
  /\ (forall i wd, nth_error ws i = Some wd ->
        nth_error (children (addChildren n ws)) (List.length (children n) + i)
        = Some (Node ListNode (Some wd) [])).
Proof.
  destruct (children_addChildren ws n) as (E & T & W).
  split; [exact E|]. split.
  { rewrite E, length_app, length_map. reflexivity. }
  split; [exact T|]. split; [exact W|].
  intros i wd H. rewrite E, nth_error_app2 by lia.
  replace (List.length (children n) + i - List.length (children n))%nat with i by lia.
  rewrite nth_error_map, H. reflexivity.
Qed.

(** X16.  A nil widget pointer makes the layout panic before the engine
    is called: [drawFlex] and [drawList] on a node one of whose children
    has no widget return the panic, whatever the engines; the trees
    [MakeFlex] and [MakeList] build have none. *)
Theorem nil_child_panics
        (FlexLayout : layout.Flex -> Context -> list layout.FlexChild
                      -> option (list Op * Dimensions))
        (ListLayout : layout.Axis -> Context -> nat
                      -> (Context -> nat -> option (list Op * Dimensions))
                      -> option (list Op * Dimensions))
        (dir : layout.Axis) (gtx : Context) :
  (forall n c, In c (children n) -> w c = None ->
     drawFlex FlexLayout n gtx = None /\ drawList ListLayout n dir gtx = None)
  /\ (forall ws root, root = flexRoot \/ root = Node ListNode None [] ->
        forall c, In c (children (addChildren root ws)) -> w c <> None).
Proof.
  split.
  - intros n c Hc Hw.
    assert (D : derefChildren (children n) = None)
      by (apply derefChildren_None; exists c; auto).
    unfold drawFlex, drawFlex_children, drawList. rewrite D. auto.
  - intros ws root Hr c Hc.
    destruct (children_addChildren ws root) as (E & _).
    rewrite E in Hc.
    assert (R : children root = []) by (destruct Hr; subst; reflexivity).
    rewrite R in Hc. simpl in Hc.
    apply in_map_iff in Hc. destruct Hc as (wd & <- & _). discriminate.
Qed.

(** X17.  [MakeList] hands the list engine the number of widgets and an
    element function that lays out the widget at the index it is asked
    for, in the order the widgets were given, and panics for an index that
    is not below that number. *)
Theorem MakeList_elements
        (ListLayout : layout.Axis -> Context -> nat
                      -> (Context -> nat -> option (list Op * Dimensions))
                      -> option (list Op * Dimensions))
        (dir : layout.Axis) (ws : list Widget) (gtx : Context) :
  exists elem,
    MakeList ListLayout dir ws gtx = ListLayout dir gtx (List.length ws) elem
    /\ (forall g i wd, nth_error ws i = Some wd -> elem g i = Some (wd g))
    /\ (forall g i, (List.length ws <= i)%nat -> elem g i = None)
    /\ (forall g i, (i < List.length ws)%nat -> elem g i <> None).
Proof.
  unfold MakeList, drawList.
  destruct (addChildren_deref ws (Node ListNode None []) [] eq_refl) as [E _].
  rewrite E. simpl app.
  eexists. split; [reflexivity|]. split; [| split].
  - intros g i wd H. simpl. now rewrite H.
  - intros g i H. simpl. apply nth_error_None in H. now rewrite H.
  - intros g i H. simpl.
    destruct (nth_error ws i) eqn:N; [discriminate|].
    apply nth_error_None in N. lia.
Qed.

(* ------------------------------------------------------------------ *)
(** ** Separator *)

(** X18.  With pixel values that are not negative and fit an [int]:
    [Separator] offsets by the left and top padding, clips to a bar of
    width [Max.X - left - right] and height [thickness], and paints it in
    the theme's on-background colour; the bar and its padding fill the
    returned size exactly in both directions; the bar has a negative width
    exactly when the two side paddings exceed the maximum width; and the
    colour of the style plays no part in what is drawn or returned. *)
Theorem Separator_geometry (Px : Context -> Value -> Z) (s : SeparatorStyle) (gtx : Context) :
  let t := Px gtx (thickness s) in
  let top := Px gtx (Top (padding s)) in
  let bottom := Px gtx (Bottom (padding s)) in
  let left := Px gtx (Left (padding s)) in
  let right := Px gtx (Right (padding s)) in
  let maxX := X (Max (Cs gtx)) in
  0 <= t -> 0 <= top -> 0 <= bottom -> 0 <= left -> 0 <= right ->
  t + top + bottom < 2 ^ 63 ->
  - 2 ^ 63 <= maxX - left - right ->
  maxX < 2 ^ 63 ->
  fst (Separator Px s gtx)
  = [ OffsetOp (FPt (inject_Z left) (inject_Z top));
      RectOp (Pt (maxX - left - right) t);
      ColorOp ThOnBackground;
      PaintOp ]
  /\ Size (snd (Separator Px s gtx)) = Pt maxX (top + t + bottom)
  /\ left + (maxX - left - right) + right = X (Size (snd (Separator Px s gtx)))
  /\ (maxX - left - right < 0 <-> maxX < left + right)
  /\ (forall col, Separator Px (set_color s col) gtx = Separator Px s gtx).
Proof.
  cbv zeta. intros H1 H2 H3 H4 H5 H6 H7 H8.
  assert (C : forall col, Separator Px (set_color s col) gtx = Separator Px s gtx)
    by (intro col; reflexivity).
  split; [| split; [| split; [| split; [| exact C]]]];
    unfold Separator; cbn [fst snd Size X Y];
    rewrite ?(int_id (Px gtx (thickness s) + Px gtx (Top (padding s)))) by lia;
    rewrite ?(int_id (Px gtx (thickness s) + Px gtx (Top (padding s))
                      + Px gtx (Bottom (padding s)))) by lia;
    rewrite ?(int_id (X (Max (Cs gtx)) - Px gtx (Left (padding s)))) by lia;
    rewrite ?(int_id (X (Max (Cs gtx)) - Px gtx (Left (padding s))
                      - Px gtx (Right (padding s)))) by lia;
    first [reflexivity | f_equal; lia | lia].
Qed.

Lemma Separator_geometry_witness :
  Size (snd (Separator pxPlain hairline (contextAt 0 (Pt 100 100) (Pt 100 100))))
  = Pt 100 (0 + 1 + 0).
Proof.
  assert (H1 : 0 <= pxPlain (contextAt 0 (Pt 100 100) (Pt 100 100)) (thickness hairline))
    by (vm_compute; discriminate).
  assert (H2 : 0 <= pxPlain (contextAt 0 (Pt 100 100) (Pt 100 100)) (Top (padding hairline)))
    by (vm_compute; discriminate).
  assert (H3 : 0 <= pxPlain (contextAt 0 (Pt 100 100) (Pt 100 100)) (Bottom (padding hairline)))
    by (vm_compute; discriminate).
  assert (H4 : 0 <= pxPlain (contextAt 0 (Pt 100 100) (Pt 100 100)) (Left (padding hairline)))
    by (vm_compute; discriminate).
  assert (H5 : 0 <= pxPlain (contextAt 0 (Pt 100 100) (Pt 100 100)) (Right (padding hairline)))
    by (vm_compute; discriminate).
  assert (H6 : pxPlain (contextAt 0 (Pt 100 100) (Pt 100 100)) (thickness hairline)
               + pxPlain (contextAt 0 (Pt 100 100) (Pt 100 100)) (Top (padding hairline))
               + pxPlain (contextAt 0 (Pt 100 100) (Pt 100 100)) (Bottom (padding hairline))
               < 2 ^ 63)
    by (vm_compute; reflexivity).
  assert (H7 : - 2 ^ 63
               <= X (Max (Cs (contextAt 0 (Pt 100 100) (Pt 100 100))))
                  - pxPlain (contextAt 0 (Pt 100 100) (Pt 100 100)) (Left (padding hairline))
                  - pxPlain (contextAt 0 (Pt 100 100) (Pt 100 100)) (Right (padding hairline)))
    by (vm_compute; discriminate).
  assert (H8 : X (Max (Cs (contextAt 0 (Pt 100 100) (Pt 100 100)))) < 2 ^ 63)
    by (vm_compute; reflexivity).
  exact (proj1 (proj2
           (Separator_geometry pxPlain hairline (contextAt 0 (Pt 100 100) (Pt 100 100))
              H1 H2 H3 H4 H5 H6 H7 H8))).
Defined.

(* ------------------------------------------------------------------ *)
(** ** The demo program *)

(** X19.  [modeFromString] does not look at its argument: the answer is
    decided by the global [mode], full screen exactly when that is
    ["fullscreen"], windowed otherwise. *)
Theorem modeFromString_reads_the_global (g : demo.Globals) (s s' : string) :
  demo.modeFromString g s = demo.modeFromString g s'
  /\ (demo.modeFromString g s = demo.Fullscreen <-> demo.mode g = "fullscreen"%string)
  /\ (demo.mode g <> "fullscreen"%string -> demo.modeFromString g s = demo.Windowed).
Proof.
  unfold demo.modeFromString.
  split; [reflexivity|].
  destruct (String.eqb_spec (demo.mode g) "fullscreen") as [E|E].
  - split; [tauto | intro N; contradiction].
  - split.
    + destruct (String.eqb (demo.mode g) "default"); split; intro H;
        try discriminate; contradiction.
    + intros _. destruct (String.eqb (demo.mode g) "default"); reflexivity.
Qed.

(** What [updateMode] writes. *)
Lemma updateMode_fields (g : demo.Globals) :
  demo.oldMode (demo.updateMode g) = demo.mode g
  /\ demo.winOptions (demo.updateMode g)
     = demo.winOptions g
       ++ (if String.eqb (demo.mode g) (demo.oldMode g) then []
           else [demo.modeFromString g (demo.mode g)])
  /\ demo.updateMode (demo.updateMode g) = demo.updateMode g
  /\ demo.mode (demo.updateMode g) = demo.mode g
  /\ demo.fontSize (demo.updateMode g) = demo.fontSize g
  /\ demo.oldFontSize (demo.updateMode g) = demo.oldFontSize g
  /\ demo.oldWindowSize (demo.updateMode g) = demo.oldWindowSize g
  /\ demo.TextSize (demo.updateMode g) = demo.TextSize g
  /\ demo.setups (demo.updateMode g) = demo.setups g.
Proof.
  unfold demo.updateMode.
  destruct (String.eqb_spec (demo.mode g) (demo.oldMode g)) as [E|E]; simpl.
  - rewrite app_nil_r.
    destruct (String.eqb_spec (demo.mode g) (demo.oldMode g)); [| contradiction].
    repeat split; auto.
  - rewrite String.eqb_refl. simpl. repeat split.
Qed.

(** X20.  [updateMode] passes the window its mode exactly when the mode
    differs from the one recorded, records it, and touches nothing else; a
    second call in a row does nothing. *)
Theorem updateMode_once (g : demo.Globals) :
  demo.oldMode (demo.updateMode g) = demo.mode g
  /\ demo.winOptions (demo.updateMode g)
     = demo.winOptions g
       ++ (if String.eqb (demo.mode g) (demo.oldMode g) then []
           else [demo.modeFromString g (demo.mode g)])
  /\ demo.updateMode (demo.updateMode g) = demo.updateMode g
  /\ demo.mode (demo.updateMode g) = demo.mode g
  /\ demo.fontSize (demo.updateMode g) = demo.fontSize g
  /\ demo.oldFontSize (demo.updateMode g) = demo.oldFontSize g
  /\ demo.oldWindowSize (demo.updateMode g) = demo.oldWindowSize g
  /\ demo.TextSize (demo.updateMode g) = demo.TextSize g
  /\ demo.setups (demo.updateMode g) = demo.setups g.
Proof. exact (updateMode_fields g). Qed.

Lemma changed_after_rebuild (g : demo.Globals) (size : Point) :
  demo.changed (demo.rebuildIfChanged g size) size = false.
Proof.
  unfold demo.rebuildIfChanged.
  destruct (demo.changed g size) eqn:C; [| exact C].
  destruct (updateMode_fields
              {| demo.mode := demo.mode g; demo.fontSize := demo.fontSize g;
                 demo.oldMode := demo.oldMode g; demo.oldFontSize := demo.fontSize g;
                 demo.oldWindowSize := size;
                 demo.TextSize := demo.textSizeFor g (Y size);
                 demo.winOptions := demo.winOptions g; demo.setups := demo.setups g |})
    as (U1 & _ & _ & U4 & U5 & U6 & U7 & _).
  unfold demo.changed, demo.setup. cbn [demo.mode demo.fontSize demo.oldMode
    demo.oldFontSize demo.oldWindowSize].
  rewrite U1, U4, U5, U6, U7. cbn [demo.mode demo.fontSize demo.oldFontSize
    demo.oldWindowSize].
  rewrite !Z.eqb_refl, !String.eqb_refl. reflexivity.
Qed.

(** X21.  The block at the head of [handleFrameEvents] rebuilds the
    widget tree (one call of [setup]) exactly when the window size, the
    mode or the font size name differs from what was recorded, and does not
    write the mode or the font size name; after it nothing differs any
    more, so running it again for the same size changes nothing.  Hence a
    second frame event of the same size calls [setup] again only if drawing
    the first frame changed the mode, the font size name or the recorded
    values. *)
Theorem frame_rebuilds_only_on_change (Root : demo.Globals -> demo.Globals)
        (g : demo.Globals) (size : Point) :
  demo.setups (demo.rebuildIfChanged g size)
  = (demo.setups g + (if demo.changed g size then 1 else 0))%nat
  /\ demo.changed (demo.rebuildIfChanged g size) size = false
  /\ demo.rebuildIfChanged (demo.rebuildIfChanged g size) size
     = demo.rebuildIfChanged g size
  /\ demo.mode (demo.rebuildIfChanged g size) = demo.mode g
  /\ demo.fontSize (demo.rebuildIfChanged g size) = demo.fontSize g
  /\ (demo.changed g size = true ->
        demo.oldWindowSize (demo.rebuildIfChanged g size) = size
        /\ demo.oldMode (demo.rebuildIfChanged g size) = demo.mode g
        /\ demo.oldFontSize (demo.rebuildIfChanged g size) = demo.fontSize g
        /\ demo.TextSize (demo.rebuildIfChanged g size) = demo.textSizeFor g (Y size))
  /\ (demo.changed (demo.handleFrameEvents Root g size) size = false ->
        demo.setups (demo.handleFrameEvents Root (demo.handleFrameEvents Root g size) size)
        = demo.setups (Root (demo.handleFrameEvents Root g size))).
Proof.
  assert (C := changed_after_rebuild g size).
  split; [| split; [exact C | split; [| split; [| split; [| split]]]]].
  - unfold demo.rebuildIfChanged. destruct (demo.changed g size); [| simpl; lia].
    match goal with |- context [demo.updateMode ?x] =>
      destruct (updateMode_fields x) as (_ & _ & _ & _ & _ & _ & _ & _ & U9) end.
    unfold demo.setup. cbn [demo.setups]. rewrite U9. simpl. lia.
  - unfold demo.rebuildIfChanged at 1. rewrite C. reflexivity.
  - unfold demo.rebuildIfChanged. destruct (demo.changed g size); [| reflexivity].
    match goal with |- context [demo.updateMode ?x] =>
      destruct (updateMode_fields x) as (_ & _ & _ & U4 & _) end.
    unfold demo.setup. cbn [demo.mode]. rewrite U4. reflexivity.
  - unfold demo.rebuildIfChanged. destruct (demo.changed g size); [| reflexivity].
    match goal with |- context [demo.updateMode ?x] =>
      destruct (updateMode_fields x) as (_ & _ & _ & _ & U5 & _) end.
    unfold demo.setup. cbn [demo.fontSize]. rewrite U5. reflexivity.
  - intro Hc. unfold demo.rebuildIfChanged. rewrite Hc.
    match goal with |- context [demo.updateMode ?x] =>
      destruct (updateMode_fields x) as (U1 & _ & _ & U4 & U5 & U6 & U7 & U8 & _) end.
    unfold demo.setup. cbn [demo.mode demo.fontSize demo.oldMode demo.oldFontSize
      demo.oldWindowSize demo.TextSize].
    rewrite U1, U6, U7, U8. simpl. repeat split.
  - intro H. unfold demo.handleFrameEvents at 1.
    unfold demo.rebuildIfChanged. rewrite H. reflexivity.
Qed.

(** X22.  The text size follows the window height: it is the height
    over 80, 60 or 45 dp for the font size names ["small"], ["medium"] and
    ["large"] (or the same names with a capital first letter), growing in
    that order for a positive height; any other name (such as ["MEDIUM"])
    keeps the text size. *)
Theorem text_size_by_font_name (g : demo.Globals) (y : Z) :
  (forall name, name = "small"%string \/ name = "Small"%string ->
     demo.textSizeFor (demo.withFontSize g name) y = unitDp (inject_Z y / 80))
  /\ (forall name, name = "medium"%string \/ name = "Medium"%string ->
        demo.textSizeFor (demo.withFontSize g name) y = unitDp (inject_Z y / 60))
  /\ (forall name, name = "large"%string \/ name = "Large"%string ->
        demo.textSizeFor (demo.withFontSize g name) y = unitDp (inject_Z y / 45))
  /\ (forall name,
        ~ In name ["small"; "Small"; "medium"; "Medium"; "large"; "Large"]%string ->
        demo.textSizeFor (demo.withFontSize g name) y = demo.TextSize g)
  /\ (0 < y ->
        (V (demo.textSizeFor (demo.withFontSize g "small") y)
         < V (demo.textSizeFor (demo.withFontSize g "medium") y))%Q
        /\ (V (demo.textSizeFor (demo.withFontSize g "medium") y)
            < V (demo.textSizeFor (demo.withFontSize g "large") y))%Q).
Proof.
  split; [intros name [-> | ->]; reflexivity|].
  split; [intros name [-> | ->]; reflexivity|].
  split; [intros name [-> | ->]; reflexivity|].
  split.
  { intros name H. unfold demo.textSizeFor. cbn [demo.fontSize demo.withFontSize demo.TextSize].
    repeat match goal with
           | |- context [String.eqb name ?lit] =>
               destruct (String.eqb_spec name lit) as [E|E];
               [exfalso; apply H; rewrite E; simpl; tauto | clear E]
           end.
    reflexivity. }
  intro Hy. cbn.
  assert (P : (0 < inject_Z y)%Q).
  { change 0%Q with (inject_Z 0). now rewrite <- Zlt_Qlt. }
  assert (E80 : (inject_Z y / 80 == inject_Z y * (1 # 80))%Q) by field.
  assert (E60 : (inject_Z y / 60 == inject_Z y * (1 # 60))%Q) by field.
  assert (E45 : (inject_Z y / 45 == inject_Z y * (1 # 45))%Q) by field.
  rewrite E80, E60, E45. split; lra.
Qed.

Lemma progressTick_range (p pg : Q) :
  (0 <= p)%Q -> (0 <= pg)%Q -> (0 <= demo.progressTick p pg <= 1)%Q.
Proof.
  intros Hp Hg. unfold demo.progressTick. cbv zeta.
  destruct (Qgtb (p + pg) 1) eqn:E.
  - split; discriminate.
  - apply Qgtb_false in E. split; lra.
Qed.

(** X23.  The progress stays in [0; 1]: from a progress that is not
    negative, after any number of increments that are not negative, it is
    between 0 and 1 as soon as one increment has arrived. *)
Theorem progress_stays_in_range (pgs : list Q) (pg progress : Q) :
  (0 <= progress)%Q ->
  (0 <= pg)%Q ->
  Forall (fun x => 0 <= x)%Q pgs ->
  (0 <= demo.progressAfter (pg :: pgs) progress <= 1)%Q.
Proof.
  intros Hp Hg HF. unfold demo.progressAfter. simpl.
  assert (R := progressTick_range progress pg Hp Hg).
  revert R. generalize (demo.progressTick progress pg). clear Hp Hg.
  induction HF as [|x l Hx _ IH]; intros p R; simpl.
  - exact R.
  - apply IH. apply progressTick_range; [apply R | exact Hx].
Qed.

Lemma progress_stays_in_range_witness :
  (0 <= demo.progressAfter [0.1; 0.1; 0.1]%Q 0.9 <= 1)%Q.
Proof.
  assert (Hp : (0 <= 0.9)%Q) by discriminate.
  assert (Hg : (0 <= 0.1)%Q) by discriminate.
  assert (HF : Forall (fun x => 0 <= x)%Q [0.1; 0.1]%Q)
    by (repeat constructor; discriminate).
  exact (progress_stays_in_range [0.1; 0.1]%Q 0.1 0.9 Hp Hg HF).
Defined.

(** X24.  [onClick] panics while [thb] is nil.  Otherwise every click
    flips the flag and sets the primary colour to green when the flag is
    now set and to blue when it is not; so after any number of clicks, at
    least one, no click panics, the flag has flipped that many times and
    the colour shows the flag. *)
Theorem clicks_keep_colour_with_flag (n : nat) (green : bool) (c : Colour) :
  demo.onClick green None = None
  /\ demo.clicks (S n) (green, c)
     = Some (if Nat.even n then negb green else green,
             if (if Nat.even n then negb green else green)
             then NRGBA 0 157 0 255 else NRGBA 0 0 255 255).
Proof.
  split; [reflexivity|].
  revert green c. induction n as [|n IH]; intros green c.
  - simpl. destruct green; reflexivity.
  - change (demo.clicks (S (S n)) (green, c))
      with (match demo.onClick green (Some c) with
            | Some st' => demo.clicks (S n) st'
            | None => None
            end).
    assert (O : demo.onClick green (Some c)
                = Some (negb green, if negb green then NRGBA 0 157 0 255
                                    else NRGBA 0 0 255 255))
      by (unfold demo.onClick; destruct green; reflexivity).
    rewrite O, IH.
    rewrite Nat.even_succ, <- Nat.negb_even.
    destruct (Nat.even n), green; reflexivity.
Qed.
